(** * FlexGet RSS input plugin: a shallow embedding of
      [flexget/plugins/input/rss.py] and the properties of its ingestion run.

    The plugin fetches a feed, classifies the parser's bozo fault, scans the
    entries against the persisted "last entry" fingerprint, builds one FlexGet
    [Entry] per resolved link and finally persists the new fingerprint.

    Conventions of the model.
    - Text is a [string] holding the UTF-8 bytes of the Python text.
    - A Python dict is a [gmap string _]; [d.get(k)] is [d !! k].
    - The run is written in a state-and-outcome monad [M]: the state holds
      what the run mutates ([task.simple_persistence], [task.no_entries_ok],
      the log, the files written under [received/], and the two locals
      [entries] / [ignored] that the closure [add_entry] captures); the
      outcome is "go on", an early [return], or a raised exception.
    - A log record keeps the level and the message template as written in the
      source; the interpolated arguments are not kept. *)

From stdpp Require Import gmap strings list fin_maps.
From Stdlib Require Import ZArith Ascii String.

Open Scope string_scope.
Open Scope Z_scope.

(* ===================================================================== *)
(** ** Values handed over by the parser *)
(* ===================================================================== *)

(** What an entry of the parsed feed holds under a key: text, or some other
    Python object (a list of tags, a detail dict, [None], ...), of which only
    the truth value and the identity under [==] are kept. *)
Inductive value :=
| VStr (s : string)
| VObj (truthy : bool) (tag : nat).

#[global] Instance value_eq_dec : EqDecision value.
Proof. solve_decision. Defined.

Definition str_truthy (s : string) : bool :=
  match s with EmptyString => false | String _ _ => true end.

(** Python truth value, [bool(v)]. *)
Definition truthy (v : value) : bool :=
  match v with
  | VStr s => str_truthy s
  | VObj b _ => b
  end.

(** [bool(d.get(k))]: a missing key gives [None], which is false. *)
Definition get_truthy (o : option value) : bool :=
  match o with Some v => truthy v | None => false end.

(** One element of [entry.enclosures]. *)
Record enclosure := Enclosure {
  href : option string;
  length_attr : option string;
  type_attr : option string
}.

(** [time.struct_time]: compared as a tuple, lexicographically. *)
Definition struct_time := list Z.

(** An entry as the feed parser returns it (a dict that also answers
    attribute access).  [fields] are the keys looked up by a configurable
    name, as [entry.get(name)] answers them (the parser's key aliases, such
    as [guid] for [id], are applied); [enclosures] is
    [entry.get('enclosures', [])];
    [published_parsed] is [None] when the key is missing, [Some None] when it
    is present and holds Python's [None].  [title_attr] is the instance
    attribute written by [entry.title = ...] in the loop: attribute
    assignment on a dict subclass leaves the key ['title'] untouched. *)
Record rss_entry := RssEntry {
  fields : gmap string value;
  enclosures : list enclosure;
  published_parsed : option (option struct_time);
  title_attr : option value
}.

Definition set_title_attr (e : rss_entry) (v : value) : rss_entry :=
  {| fields := fields e; enclosures := enclosures e;
     published_parsed := published_parsed e; title_attr := Some v |}.

(** The bozo exception of a parse result, by the classes the plugin tells
    apart. *)
Inductive bozo_exception :=
| NonXMLContentType
| CharacterEncodingOverride
| UnicodeEncodeError
| SAXParseException
| BadStatusLine
| BozoIOError
| OtherBozo (class_name : string).

(** The result of [feedparser.parse]: [bozo] is [None] when the key is
    missing from the result. *)
Record parsed_feed := ParsedFeed {
  bozo : option bool;
  bozo_exception_of : option bozo_exception;
  feed_entries : list rss_entry
}.

(* ===================================================================== *)
(** ** Text helpers *)
(* ===================================================================== *)

(** [s.startswith(p)]. *)
Fixpoint startswith (p s : string) : bool :=
  match p, s with
  | EmptyString, _ => true
  | String a p', String b s' => if Ascii.eqb a b then startswith p' s' else false
  | String _ _, EmptyString => false
  end.

(** [sub in s]. *)
Fixpoint contains (sub s : string) : bool :=
  startswith sub s ||
  match s with
  | EmptyString => false
  | String _ s' => contains sub s'
  end.

(** [str.lower()] on the bytes of a response body: ASCII letters only. *)
Definition ascii_lower_char (c : ascii) : ascii :=
  let n := nat_of_ascii c in
  if ((65 <=? n)%nat && (n <=? 90)%nat)%bool then ascii_of_nat (n + 32) else c.

Fixpoint ascii_lower (s : string) : string :=
  match s with
  | EmptyString => EmptyString
  | String c s' => String (ascii_lower_char c) (ascii_lower s')
  end.

(** [s.replace(':', '_')]. *)
Fixpoint replace_colon (s : string) : string :=
  match s with
  | EmptyString => EmptyString
  | String c s' =>
      String (if Ascii.eqb c ":"%char then "_"%char else c) (replace_colon s')
  end.

(** [title.encode('ascii', 'ignore')]: every byte of a non-ASCII character
    is at least 128 in UTF-8, so dropping those bytes drops those
    characters. *)
Fixpoint encode_ascii_ignore (s : string) : string :=
  match s with
  | EmptyString => EmptyString
  | String c s' =>
      if (nat_of_ascii c <? 128)%nat then String c (encode_ascii_ignore s')
      else encode_ascii_ignore s'
  end.

(** The three UTF-8 bytes of U+200B, ZERO WIDTH SPACE. *)
Definition zwsp : string :=
  String (ascii_of_nat 226) (String (ascii_of_nat 128) (String (ascii_of_nat 139) EmptyString)).

(** [title.replace(u'\u200B', u'')]: one pass from the left, the text after
    a removed occurrence is scanned on. *)
Fixpoint remove_zwsp (s : string) : string :=
  match s with
  | String a (String b (String c rest) as tl) =>
      if (Ascii.eqb a (ascii_of_nat 226) && Ascii.eqb b (ascii_of_nat 128)
          && Ascii.eqb c (ascii_of_nat 139))%bool
      then remove_zwsp rest
      else String a (remove_zwsp tl)
  | _ => s
  end.

(* ===================================================================== *)
(** ** Configuration *)
(* ===================================================================== *)

(** The [link] option: a field name (['auto'] by default) or a list of
    field names. *)
Inductive link_value :=
| LinkText (s : string)
| LinkList (l : list string).

(** One item of the [other_fields] option as the user writes it: a field
    name, or a dict from field name to FlexGet field name. *)
Inductive other_field :=
| OtherText (s : string)
| OtherDict (items : list (string * string)).

(** The advanced (dict) form of the plugin configuration; [None] is a key
    the user left out. *)
Record raw_config := RawConfig {
  raw_url : string;
  raw_username : option string;
  raw_password : option string;
  raw_title : option string;
  raw_link : option link_value;
  raw_other_fields : option (list other_field);
  raw_silent : option bool;
  raw_ascii : option bool;
  raw_filename : option bool;
  raw_group_links : option bool;
  raw_all_entries : option bool
}.

Inductive plugin_config :=
| ConfigUrl (u : string)
| ConfigDict (c : raw_config).

(** The configuration after [build_config]: [link], [group_links] and
    [all_entries] have their defaults, and a non-empty [other_fields] has
    become a list of one-key dicts. *)
Record config := Config {
  cfg_url : string;
  cfg_username : option string;
  cfg_password : option string;
  cfg_title : option string;
  cfg_link : link_value;
  cfg_other_fields : option (list (string * string));
  cfg_silent : option bool;
  cfg_ascii : option bool;
  cfg_filename : option bool;
  cfg_group_links : bool;
  cfg_all_entries : bool
}.

(** What the run reads of the task and of the manager's options. *)
Record task_info := TaskInfo {
  task_name : string;
  config_modified : bool;
  options_nocache : bool;
  options_debug : bool
}.

(* ===================================================================== *)
(** ** FlexGet entries, exceptions and the state of a run *)
(* ===================================================================== *)

Inductive evalue :=
| EVal (v : value)
| EInt (n : Z)
| EList (l : list value)
| EDate (t : list Z).

#[global] Instance evalue_eq_dec : EqDecision evalue.
Proof. solve_decision. Defined.

(** Modelled from the spec: the class [Entry] of [flexget.entry] is not
    among the sources.  The spec's OutputItem is a record of named fields
    ([title], [url], [urls], [size], [type], [filename], the copied
    [other_fields], ...) that the run fills key by key; it is a mapping with
    the behaviour of a plain dict, [e[k]] raising [KeyError] on a missing
    key. *)
Abbreviation Entry := (gmap string evalue).

Inductive exc :=
| PluginError (template : string)
| BozoRaised (ex : bozo_exception)
| KeyError (key : string)
| ValueError
| AttributeError (attr : string)
| TypeError
| IOError
| IndexError.

Inductive level :=
| LTrace | LDebug | LVerbose | LInfo | LWarning | LError | LCritical | LException.

#[global] Instance level_eq_dec : EqDecision level.
Proof. solve_decision. Defined.

(** The persisted state of one source: the three keys
    [<hash>_etag], [<hash>_modified] and [<hash>_last_entry] of
    [task.simple_persistence]; [None] is a key never written. *)
Record CacheState := MkCache {
  cs_etag : option value;
  cs_modified : option value;
  cs_last_entry : option value
}.

Record run_state := RunState {
  simple_persistence : CacheState;
  no_entries_ok : bool;
  log : list (level * string);
  received : list (string * string);
  entries : list Entry;
  ignored : nat
}.

Definition initial_state (cs : CacheState) : run_state :=
  {| simple_persistence := cs; no_entries_ok := false; log := [];
     received := []; entries := []; ignored := 0%nat |}.

(** What a step of the run comes to: it goes on with a value, the function
    returns early ([Return None] is a bare [return]), or an exception
    propagates. *)
Inductive outcome (A : Type) :=
| Next (a : A)
| Return (r : option (list Entry))
| Raise (e : exc).
Arguments Next {A} a.
Arguments Return {A} r.
Arguments Raise {A} e.

Definition M (A : Type) : Type := run_state -> outcome A * run_state.

Definition ret {A} (a : A) : M A := fun st => (Next a, st).

Definition bind {A B} (c : M A) (k : A -> M B) : M B :=
  fun st =>
    match c st with
    | (Next a, st') => k a st'
    | (Return r, st') => (Return r, st')
    | (Raise e, st') => (Raise e, st')
    end.

Notation "x <- c ;; k" := (bind c (fun x => k))
  (at level 100, c at next level, right associativity).
Notation "c ;; k" := (bind c (fun _ => k))
  (at level 100, right associativity).

Definition raise {A} (e : exc) : M A := fun st => (Raise e, st).
Definition return_ {A} (r : option (list Entry)) : M A := fun st => (Return r, st).

Definition log_ (l : level) (template : string) : M unit :=
  fun st =>
    (Next tt,
     {| simple_persistence := simple_persistence st; no_entries_ok := no_entries_ok st;
        log := log st ++ [(l, template)]; received := received st;
        entries := entries st; ignored := ignored st |}).

Definition get_persistence : M CacheState := fun st => (Next (simple_persistence st), st).

Definition set_persistence (f : CacheState -> CacheState) : M unit :=
  fun st =>
    (Next tt,
     {| simple_persistence := f (simple_persistence st); no_entries_ok := no_entries_ok st;
        log := log st; received := received st;
        entries := entries st; ignored := ignored st |}).

Definition set_no_entries_ok : M unit :=
  fun st =>
    (Next tt,
     {| simple_persistence := simple_persistence st; no_entries_ok := true;
        log := log st; received := received st;
        entries := entries st; ignored := ignored st |}).

Definition write_received (name data : string) : M unit :=
  fun st =>
    (Next tt,
     {| simple_persistence := simple_persistence st; no_entries_ok := no_entries_ok st;
        log := log st; received := received st ++ [(name, data)];
        entries := entries st; ignored := ignored st |}).

(** [entries.append(ea)] *)
Definition append_entry (ea : Entry) : M unit :=
  fun st =>
    (Next tt,
     {| simple_persistence := simple_persistence st; no_entries_ok := no_entries_ok st;
        log := log st; received := received st;
        entries := entries st ++ [ea]; ignored := ignored st |}).

(** [ignored += 1] *)
Definition incr_ignored : M unit :=
  fun st =>
    (Next tt,
     {| simple_persistence := simple_persistence st; no_entries_ok := no_entries_ok st;
        log := log st; received := received st;
        entries := entries st; ignored := S (ignored st) |}).

(** [entries = []] and [ignored = 0] before the loop. *)
Definition init_locals : M unit :=
  fun st =>
    (Next tt,
     {| simple_persistence := simple_persistence st; no_entries_ok := no_entries_ok st;
        log := log st; received := received st;
        entries := []; ignored := 0%nat |}).

Definition get_state : M run_state := fun st => (Next st, st).

(** [d.get(k, default)] for an optional boolean key. *)
Definition get_flag (o : option bool) (dflt : bool) : bool :=
  match o with Some b => b | None => dflt end.

(* ===================================================================== *)
(** ** The plugin *)
(* ===================================================================== *)

(** The request headers the run builds from the persisted state. *)
Record request_headers := Headers {
  if_none_match : option value;
  if_modified_since : option value
}.

(** What the run reads of an HTTP response. *)
Record response := Response {
  status_code : Z;
  resp_etag : option string;
  resp_last_modified : option string;
  resp_www_authenticate : option string;
  content : string
}.

(** [a < b] between two [published_parsed] values as Python 2 orders them:
    [None] is below every tuple, tuples compare lexicographically. *)
Fixpoint tuple_lt (a b : list Z) : bool :=
  match a, b with
  | [], [] => false
  | [], _ :: _ => true
  | _ :: _, [] => false
  | x :: a', y :: b' =>
      if x <? y then true else if y <? x then false else tuple_lt a' b'
  end.

Definition time_lt (a b : option struct_time) : bool :=
  match a, b with
  | None, None => false
  | None, Some _ => true
  | Some _, None => false
  | Some x, Some y => tuple_lt x y
  end.

(** [list.sort(key=..., reverse=True)]: the stable descending sort, written
    as an insertion sort over the entries paired with their keys. *)
Fixpoint insert_desc (k : option struct_time) (e : rss_entry)
    (l : list (option struct_time * rss_entry)) : list (option struct_time * rss_entry) :=
  match l with
  | [] => [(k, e)]
  | (k', e') :: l' =>
      if time_lt k k' then (k', e') :: insert_desc k e l' else (k, e) :: l
  end.

Definition sort_desc (l : list (option struct_time * rss_entry)) : list rss_entry :=
  map snd (foldr (fun ke acc => insert_desc (fst ke) (snd ke) acc) [] l).

(** The keys [x['published_parsed']] of the sort: [None] when some entry
    lacks the key (the key function raises [KeyError]). *)
Fixpoint sort_keys (l : list rss_entry) : option (list (option struct_time * rss_entry)) :=
  match l with
  | [] => Some []
  | e :: l' =>
      match published_parsed e, sort_keys l' with
      | Some k, Some r => Some ((k, e) :: r)
      | _, _ => None
      end
  end.

(** The fixed part of the dict [fields] of the loop body. *)
Definition base_fields : gmap string string :=
  <["infohash" := "torrent_info_hash"]>
    (<["description" := "description"]>
      (<["author" := "author"]> (<["guid" := "guid"]> ∅))).

(** [for field_map in config.get('other_fields', []): fields.update(field_map)] *)
Definition grab_fields_of (cfg : config) : gmap string string :=
  foldl (fun m kv => <[fst kv := snd kv]> m) base_fields
        (default [] (cfg_other_fields cfg)).

(** [getattr(entry, name)] for a name that is a key of the entry: the
    instance attribute [title] shadows the key. *)
Definition getattr_entry (e : rss_entry) (name : string) : option value :=
  if bool_decide (name = "title") then
    match title_attr e with
    | Some v => Some v
    | None => fields e !! name
    end
  else fields e !! name.

(** [a + b] on two values of an entry: text concatenation; any other
    operand raises (for every parser type but two sequences of one kind
    this is the [TypeError] of [+]; those fail on the next text method). *)
Definition py_concat (a b : value) : M string :=
  match a, b with
  | VStr x, VStr y => ret (x ++ y)
  | _, _ => raise TypeError
  end.

(** [entry.title + entry.get('guid', '')] *)
Definition fingerprint (e : rss_entry) : M string :=
  match getattr_entry e "title" with
  | None => raise (AttributeError "title")
  | Some t => py_concat t (default (VStr "") (fields e !! "guid"))
  end.

(** [e[key]] on a FlexGet entry, for a key holding a parser value. *)
Definition entry_getitem (e : Entry) (key : string) : M evalue :=
  match e !! key with
  | Some v => ret v
  | None => raise (KeyError key)
  end.

(** [bool(e.get(key))] on a FlexGet entry. *)
Definition entry_truthy (e : Entry) (key : string) : bool :=
  match e !! key with
  | Some (EVal v) => truthy v
  | Some (EInt n) => negb (n =? 0)
  | Some (EList l) => match l with [] => false | _ => true end
  | Some (EDate _) => true
  | None => false
  end.

(** Collaborators of the run that are not part of the plugin: text
    functions of the Python library and of [flexget.utils.tools], the
    HTTP session of the task, the file system and the feed parser. *)
Class Collaborators := {
  (** [unicode.lower()] *)
  unicode_lower : string -> string;
  (** [flexget.utils.tools.decode_html]; [None]: [UnicodeDecodeError] *)
  decode_html : string -> option string;
  (** [int(text)]; [None]: the conversion raises *)
  py_int : string -> option Z;
  (** [posixpath.basename(urlparse.urlsplit(url).path)] *)
  url_basename : string -> string;
  (** [task.requests.get(url, headers=..., auth=...)]; [None]:
      [RequestException] *)
  requests_get :
    string -> request_headers -> option (string * string) -> option response;
  (** [open(path, 'rb').read()]; [None]: [IOError] *)
  read_file : string -> option string;
  (** [feedparser.parse(content)]; [None]: [LookupError] *)
  feedparser_parse : string -> option parsed_feed
}.

Section Plugin.

Context `{Collaborators}.

(** One item of [other_fields] in [build_config]. *)
Definition build_other_field (item : other_field) : option (string * string) :=
  match item with
  | OtherText s => Some (unicode_lower (replace_colon s), unicode_lower s)
  | OtherDict [] => None      (* item.items()[0] raises IndexError *)
  | OtherDict ((k, v) :: _) => Some (unicode_lower (replace_colon k), unicode_lower v)
  end.

Fixpoint build_other_fields (l : list other_field) : option (list (string * string)) :=
  match l with
  | [] => Some []
  | item :: l' =>
      match build_other_field item, build_other_fields l' with
      | Some kv, Some r => Some (kv :: r)
      | _, _ => None
      end
  end.

(** [build_config]: set default values to config. *)
Definition build_config (c : plugin_config) : M config :=
  let rc :=
    match c with
    | ConfigUrl u =>
        {| raw_url := u; raw_username := None; raw_password := None;
           raw_title := None; raw_link := None; raw_other_fields := None;
           raw_silent := None; raw_ascii := None; raw_filename := None;
           raw_group_links := None; raw_all_entries := None |}
    | ConfigDict rc => rc
    end in
  other <-
    (match raw_other_fields rc with
     | Some (item :: l) =>
         match build_other_fields (item :: l) with
         | Some r => ret (Some r)
         | None => raise IndexError
         end
     | o => ret (option_map (fun _ => []) o)
     end) ;;
  ret {| cfg_url := raw_url rc;
         cfg_username := raw_username rc;
         cfg_password := raw_password rc;
         cfg_title := raw_title rc;
         cfg_link := default (LinkText "auto") (raw_link rc);
         cfg_other_fields := other;
         cfg_silent := raw_silent rc;
         cfg_ascii := raw_ascii rc;
         cfg_filename := raw_filename rc;
         cfg_group_links := default false (raw_group_links rc);
         cfg_all_entries := default false (raw_all_entries rc) |}.

(** [process_invalid_content]: if feedparser reports error, save the
    received data and log error.  The file is recorded by its name under
    [received/] and its content. *)
Definition process_invalid_content (task : task_info) (data : option string) : M unit :=
  match data with
  | None => log_ LCritical "Received empty page - no content"
  | Some d =>
      let low := ascii_lower d in
      let is_html := contains "<html>" low in
      (if is_html
       then log_ LCritical "Received content is HTML page, not an RSS feed"
       else ret tt) ;;
      (if contains "login" low || contains "username" low
       then log_ LCritical "Received content looks a bit like login page"
       else ret tt) ;;
      (if contains "error" low
       then log_ LCritical "Received content looks a bit like error page"
       else ret tt) ;;
      write_received (task_name task ++ "." ++ (if is_html then "html" else "xml")) d ;;
      log_ LCritical "I have saved the invalid content to %s for you to view"
  end.

(** [add_enclosure_info]: stores information from an rss enclosure into an
    Entry. *)
Definition add_enclosure_info (entry : Entry) (enc : enclosure)
    (filename multiple : bool) : M Entry :=
  match href enc with
  | None => raise (KeyError "href")
  | Some h =>
      let e1 := <["url" := EVal (VStr h)]> entry in
      let e2 :=
        match length_attr enc with
        | Some len => <["size" := EInt (default 0 (py_int len))]> e1
        | None => e1
        end in
      let e3 :=
        match type_attr enc with
        | Some t => <["type" := EVal (VStr t)]> e2
        | None => e2
        end in
      let basename := url_basename h in
      if (entry_truthy e3 "size" || multiple && str_truthy basename) && filename
      then log_ LTrace "filename `%s` from enclosure" ;;
           ret (<["filename" := EVal (VStr basename)]> e3)
      else ret e3
  end.

(** The loop of [add_entry] over [fields.iteritems()], on the items in the
    order the dict yields them.  A field of the entry that is not text is
    logged and then [config['other_fields'].remove(rss_field)] runs: the
    list holds one-key dicts (or the key is missing), never the text
    [rss_field], so it raises [ValueError] (or [KeyError]).  For the same
    reason [rss_field in config.get('other_fields', [])] is false and the
    debug message of custom fields is never written. *)
Fixpoint grab_fields (cfg : config) (entry : rss_entry)
    (items : list (string * string)) (ea : Entry) : M Entry :=
  match items with
  | [] => ret ea
  | (rss_field, flexget_field) :: rest =>
      match fields entry !! rss_field, getattr_entry entry rss_field with
      | Some raw, Some attr =>
          match attr with
          | VObj _ _ =>
              log_ LError "Cannot grab non text field `%s` from rss." ;;
              match cfg_other_fields cfg with
              | None => raise (KeyError "other_fields")
              | Some _ => raise ValueError
              end
          | VStr s =>
              if negb (str_truthy s) then
                log_ LDebug "Not grabbing blank field %s from rss for %s." ;;
                grab_fields cfg entry rest ea
              else
                match raw with
                | VStr r =>
                    match decode_html r with
                    | Some d => grab_fields cfg entry rest (<[flexget_field := EVal (VStr d)]> ea)
                    | None =>
                        log_ LWarning "Failed to decode entry `%s` field `%s`" ;;
                        grab_fields cfg entry rest ea
                    end
                | VObj _ _ => raise TypeError
                end
          end
      | _, _ => grab_fields cfg entry rest ea
      end
  end.

(** The closure [add_entry(ea)] of the loop body; [title] is [entry.title]
    after the clean-up. *)
Definition add_entry (cfg : config) (entry : rss_entry) (title : string)
    (ea : Entry) : M unit :=
  ea1 <- grab_fields cfg entry (map_to_list (grab_fields_of cfg))
           (<["title" := EVal (VStr title)]> ea) ;;
  let ea2 :=
    match published_parsed entry with
    | Some (Some (x :: t)) => <["rss_pubdate" := EDate (take 6 (x :: t))]> ea1
    | _ => ea1
    end in
  let ea3 :=
    match cfg_username cfg, cfg_password cfg with
    | Some u, Some p =>
        <["basic_auth_password" := EVal (VStr p)]>
          (<["basic_auth_username" := EVal (VStr u)]> ea2)
    | _, _ => ea2
    end in
  append_entry ea3.

(** The fan-out loop: one Entry per enclosure that has an [href]. *)
Fixpoint add_enclosures (cfg : config) (entry : rss_entry) (title : string)
    (encs : list enclosure) : M unit :=
  match encs with
  | [] => ret tt
  | enc :: rest =>
      match href enc with
      | None =>
          log_ LDebug "RSS-entry `%s` enclosure does not have URL" ;;
          add_enclosures cfg entry title rest
      | Some _ =>
          ee <- add_enclosure_info ∅ enc (get_flag (cfg_filename cfg) true) true ;;
          add_entry cfg entry title ee ;;
          add_enclosures cfg entry title rest
      end
  end.

(** [for field in ['link', 'guid']: if entry.get(field): e['url'] = entry[field]; break] *)
Fixpoint first_url (entry : rss_entry) (names : list string) (e : Entry) : Entry :=
  match names with
  | [] => e
  | f :: rest =>
      match fields entry !! f with
      | Some v => if truthy v then <["url" := EVal v]> e else first_url entry rest e
      | None => first_url entry rest e
      end
  end.

(** The loop over a [link] given as a list: the first value found becomes
    [url], every value found is appended to [urls] unless already there. *)
Fixpoint list_urls (entry : rss_entry) (names : list string) (e : Entry) : Entry :=
  match names with
  | [] => e
  | f :: rest =>
      match fields entry !! f with
      | Some v =>
          if truthy v then
            let e1 := match e !! "url" with Some _ => e | None => <["url" := EVal v]> e end in
            let urls := match e1 !! "urls" with Some (EList l) => l | _ => [] end in
            let urls' := if bool_decide (v ∈ urls) then urls else (urls ++ [v])%list in
            list_urls entry rest (<["urls" := EList urls']> e1)
          else list_urls entry rest e
      | None => list_urls entry rest e
      end
  end.

(** [[enc.href for enc in enclosures if enc.get('href') not in urls]]: an
    enclosure without [href] passes the test ([None] is in no list of urls)
    and [enc.href] raises. *)
Fixpoint enclosure_hrefs (encs : list enclosure) (urls : list value) : M (list value) :=
  match encs with
  | [] => ret []
  | enc :: rest =>
      match href enc with
      | None => raise (AttributeError "href")
      | Some h =>
          r <- enclosure_hrefs rest urls ;;
          ret (if bool_decide (VStr h ∈ urls) then r else VStr h :: r)
      end
  end.

(** [e.setdefault('urls', [e['url']]).extend([...])]: the default
    [[e['url']]] is evaluated before [setdefault] is called. *)
Definition group_links (entry : rss_entry) (e : Entry) : M Entry :=
  u <- entry_getitem e "url" ;;
  let urls :=
    match e !! "urls" with
    | Some (EList l) => l
    | _ => match u with EVal v => [v] | _ => [] end
    end in
  more <- enclosure_hrefs (enclosures entry) urls ;;
  ret (<["urls" := EList (urls ++ more)%list]> e).

(** The part of the loop body that builds the single Entry of an rss item:
    the link strategy, then [group_links]. *)
Definition resolve_links (cfg : config) (entry : rss_entry) : M Entry :=
  e <-
    (match cfg_link cfg with
     | LinkText l =>
         if bool_decide (l = "auto") then
           match enclosures entry with
           | [enc] =>
               if str_truthy (default "" (href enc))
               then add_enclosure_info ∅ enc (get_flag (cfg_filename cfg) true) false
               else ret (first_url entry ["link"; "guid"] ∅)
           | _ => ret (first_url entry ["link"; "guid"] ∅)
           end
         else
           match fields entry !! l with
           | Some v => if truthy v then ret (<["url" := EVal v]> ∅) else ret ∅
           | None => ret ∅
           end
     | LinkList names => ret (list_urls entry names ∅)
     end) ;;
  if cfg_group_links cfg then group_links entry e else ret e.

Inductive loop_ctl := Continue | Break.

(** The body of [for entry in rss.entries]; the entry comes back with the
    title attribute the body assigned. *)
Definition loop_body (cfg : config) (last_entry_id : option value)
    (entry : rss_entry) : M (loop_ctl * rss_entry) :=
  let title_field := default "title" (cfg_title cfg) in
  match fields entry !! title_field with
  | Some raw_title =>
      if truthy raw_title then
        let entry1 := set_title_attr entry raw_title in
        fp <- fingerprint entry1 ;;
        if bool_decide (last_entry_id = Some (VStr fp)) then
          log_ LVerbose "Not processing entries from last run." ;;
          set_no_entries_ok ;;
          ret (Break, entry1)
        else
          match raw_title with
          | VObj _ _ => raise TypeError
          | VStr t =>
              let t1 := if get_flag (cfg_ascii cfg) false then encode_ascii_ignore t else t in
              let t2 := remove_zwsp t1 in
              let entry2 := set_title_attr entry (VStr t2) in
              if (1 <? List.length (enclosures entry))%nat && negb (cfg_group_links cfg) then
                log_ LDebug "adding %i entries from enclosures" ;;
                add_enclosures cfg entry2 t2 (enclosures entry) ;;
                ret (Continue, entry2)
              else
                e <- resolve_links cfg entry2 ;;
                if negb (entry_truthy e "url") then
                  log_ LDebug "%s does not have link (%s) or enclosure" ;;
                  incr_ignored ;;
                  ret (Continue, entry2)
                else
                  add_entry cfg entry2 t2 e ;;
                  ret (Continue, entry2)
          end
      else
        log_ LDebug "skipping entry without title" ;;
        incr_ignored ;;
        ret (Continue, entry)
  | None =>
      log_ LDebug "skipping entry without title" ;;
      incr_ignored ;;
      ret (Continue, entry)
  end.

(** [for entry in rss.entries: ...]: the entries come back as the loop left
    them; after a [break] the rest of the list is untouched. *)
Fixpoint rss_loop (cfg : config) (last_entry_id : option value)
    (es : list rss_entry) : M (list rss_entry) :=
  match es with
  | [] => ret []
  | entry :: rest =>
      r <- loop_body cfg last_entry_id entry ;;
      match r with
      | (Break, entry') => ret (entry' :: rest)
      | (Continue, entry') =>
          rest' <- rss_loop cfg last_entry_id rest ;;
          ret (entry' :: rest')
      end
  end.

(** The conditional request headers: only when caching is in use. *)
Definition conditional_headers (all_entries : bool) : M request_headers :=
  if all_entries then ret {| if_none_match := None; if_modified_since := None |}
  else
    cs <- get_persistence ;;
    inm <-
      (match cs_etag cs with
       | Some v =>
           if truthy v
           then log_ LDebug "Sending etag %s for task %s" ;; ret (Some v)
           else ret None
       | None => ret None
       end) ;;
    ims <-
      (match cs_modified cs with
       | Some (VStr s) =>
           if str_truthy s
           then log_ LDebug "Sending last-modified %s for task %s" ;; ret (Some (VStr s))
           else ret None
       | Some (VObj b _) =>
           if b
           then log_ LDebug "Invalid date was stored for last modified time." ;; ret None
           else ret None
       | None => ret None
       end) ;;
    ret {| if_none_match := inm; if_modified_since := ims |}.

(** [config['url'].startswith(('http', 'https', 'ftp', 'file'))] *)
Definition is_remote (u : string) : bool :=
  startswith "http" u || startswith "https" u || startswith "ftp" u || startswith "file" u.

(** "update etag and last modified", right after the status checks. *)
Definition save_validators (cfg : config) (r : response) : M unit :=
  if negb (cfg_all_entries cfg) then
    (match resp_etag r with
     | Some t =>
         if str_truthy t then
           set_persistence (fun cs =>
             {| cs_etag := Some (VStr t); cs_modified := cs_modified cs;
                cs_last_entry := cs_last_entry cs |}) ;;
           log_ LDebug "etag %s saved for task %s"
         else ret tt
     | None => ret tt
     end) ;;
    (match resp_last_modified r with
     | Some m =>
         if str_truthy m then
           set_persistence (fun cs =>
             {| cs_etag := cs_etag cs; cs_modified := Some (VStr m);
                cs_last_entry := cs_last_entry cs |}) ;;
           log_ LDebug "last modified %s saved for task %s"
         else ret tt
     | None => ret tt
     end)
  else ret tt.

(** "Get the feed content": over HTTP with the status checks, or from a
    local file. *)
Definition get_content (cfg : config) (headers : request_headers) : M string :=
  if is_remote (cfg_url cfg) then
    let auth :=
      match cfg_username cfg, cfg_password cfg with
      | Some u, Some p => Some (u, p)
      | _, _ => None
      end in
    match requests_get (cfg_url cfg) headers auth with
    | None => raise (PluginError "Unable to download the RSS for task %s (%s): %s")
    | Some r =>
        let status := status_code r in
        if status =? 304 then
          log_ LVerbose "%s hasn't changed since last run. Not creating entries." ;;
          set_no_entries_ok ;;
          return_ (Some [])
        else if status =? 401 then
          match resp_www_authenticate r with
          | Some _ => raise (PluginError "Authentication needed for task %s (%s): %s")
          | None => raise (KeyError "www-authenticate")
          end
        else if status =? 404 then
          raise (PluginError "RSS Feed %s (%s) not found")
        else if status =? 500 then
          raise (PluginError "Internal server exception on task %s (%s)")
        else if negb (status =? 200) then
          raise (PluginError "HTTP error %s received from %s")
        else
          save_validators cfg r ;;
          ret (content r)
    end
  else
    match read_file (cfg_url cfg) with
    | Some c => ret c
    | None => raise IOError
    end.

Definition has_entries (rss : parsed_feed) : bool :=
  match feed_entries rss with [] => false | _ :: _ => true end.

(** "check for bozo": the value of [ignore] after the classification. *)
Definition check_bozo (task : task_info) (cfg : config) (data : string)
    (rss : parsed_feed) : M bool :=
  match bozo_exception_of rss with
  | None => ret false
  | Some NonXMLContentType =>
      log_ LDebug "ignoring feedparser.NonXMLContentType" ;; ret true
  | Some CharacterEncodingOverride =>
      log_ LDebug "ignoring feedparser.CharacterEncodingOverride" ;; ret true
  | Some UnicodeEncodeError =>
      if has_entries rss then
        log_ LInfo "Feed has UnicodeEncodeError but seems to produce entries, ignoring the error ..." ;;
        ret true
      else ret false
  | Some SAXParseException =>
      if negb (has_entries rss) then
        process_invalid_content task (Some data) ;;
        (if options_debug task then log_ LException "%s" else ret tt) ;;
        raise (PluginError "Received invalid RSS content from task %s (%s)")
      else
        log_ (if negb (get_flag (cfg_silent cfg) false) then LInfo else LDebug)
          "Invalid XML received (%s). However feedparser still produced entries. Ignoring the error..." ;;
        ret true
  | Some BadStatusLine => raise (BozoRaised BadStatusLine)
  | Some BozoIOError => raise (BozoRaised BozoIOError)
  | Some (OtherBozo c) =>
      if negb (has_entries rss) then
        process_invalid_content task (Some data) ;;
        raise (PluginError "Unhandled bozo_exception. Type: %s (task: %s)")
      else
        log_ (if negb (get_flag (cfg_silent cfg) false) then LInfo else LDebug)
          "Invalid RSS received. However feedparser still produced entries. Ignoring the error ..." ;;
        ret false
  end.

(** "Test to make sure entries are in descending order", "Sort them if they
    are not". *)
Definition sort_entries (es : list rss_entry) : M (list rss_entry) :=
  match es with
  | [] => ret es
  | e0 :: _ =>
      match published_parsed e0 with
      | Some (Some (x :: t)) =>
          match published_parsed (List.last es e0) with
          | None => raise (KeyError "published_parsed")
          | Some tl =>
              if time_lt (Some (x :: t)) tl then
                match sort_keys es with
                | Some keyed => ret (sort_desc keyed)
                | None => raise (KeyError "published_parsed")
                end
              else ret es
          end
      | _ => ret es
      end
  end.

(** "Save last spot in rss" *)
Definition save_last_entry (es : list rss_entry) : M unit :=
  match es with
  | [] => ret tt
  | e0 :: _ =>
      log_ LDebug "Saving location in rss feed." ;;
      fp <- fingerprint e0 ;;
      set_persistence (fun cs =>
        {| cs_etag := cs_etag cs; cs_modified := cs_modified cs;
           cs_last_entry := Some (VStr fp) |})
  end.

(** [on_task_input]; the value of a run that goes to the end is the list
    [entries] of the last line, [return entries]. *)
Definition on_task_input (task : task_info) (c : plugin_config) : M (list Entry) :=
  cfg <- build_config c ;;
  log_ LDebug "Requesting task `%s` url `%s`" ;;
  let all_entries := cfg_all_entries cfg || config_modified task || options_nocache task in
  headers <- conditional_headers all_entries ;;
  data <- get_content cfg headers ;;
  if negb (str_truthy data) then
    log_ LError "No data recieved for rss feed." ;;
    return_ None
  else
    rss <-
      (match feedparser_parse data with
       | Some rss => ret rss
       | None => raise (PluginError "Unable to parse the RSS (from %s): %s")
       end) ;;
    ignore <- check_bozo task cfg data rss ;;
    (match bozo rss with
     | Some b =>
         if b && negb ignore then
           log_ LError "%s" ;;
           log_ LError "Bozo exception %s on task %s" ;;
           return_ None
         else ret tt
     | None =>
         log_ LWarning "feedparser bozo bit missing, feedparser bug? (FlexGet ticket #721)"
     end) ;;
    log_ LDebug "encoding %s" ;;
    sorted <- (if negb all_entries then sort_entries (feed_entries rss)
               else ret (feed_entries rss)) ;;
    last_entry_id <-
      (if negb all_entries
       then cs <- get_persistence ;; ret (cs_last_entry cs)
       else ret (Some (VStr ""))) ;;
    init_locals ;;
    scanned <- rss_loop cfg last_entry_id sorted ;;
    save_last_entry scanned ;;
    st <- get_state ;;
    (if (0 <? ignored st)%nat && negb (get_flag (cfg_silent cfg) false)
     then log_ LWarning "Skipped %s RSS-entries without required information (title, link or enclosures)"
     else ret tt) ;;
    ret (entries st).

(** What the caller of [on_task_input] gets. *)
Inductive result :=
| Returned (r : option (list Entry))
| Raised (e : exc).

(** A whole run from the persisted state [cs]. *)
Definition run (task : task_info) (c : plugin_config) (cs : CacheState)
    : result * run_state :=
  match on_task_input task c (initial_state cs) with
  | (Next out, st) => (Returned (Some out), st)
  | (Return r, st) => (Returned r, st)
  | (Raise e, st) => (Raised e, st)
  end.

End Plugin.

(* ===================================================================== *)
(** ** Concrete collaborators, feeds and configurations of the examples *)
(* ===================================================================== *)

(** A decimal reader for [int()]: digits only. *)
Fixpoint read_digits (s : string) (acc : Z) : option Z :=
  match s with
  | EmptyString => Some acc
  | String c s' =>
      let n := nat_of_ascii c in
      if ((48 <=? n)%nat && (n <=? 57)%nat)%bool
      then read_digits s' (10 * acc + Z.of_nat (n - 48))
      else None
  end.

Definition demo_int (s : string) : option Z :=
  match s with
  | EmptyString => None
  | _ => read_digits s 0
  end.

(** The text after the last slash. *)
Fixpoint demo_basename (s : string) : string :=
  match s with
  | EmptyString => EmptyString
  | String c s' =>
      if contains "/" s' then demo_basename s'
      else if Ascii.eqb c "/"%char then s' else s
  end.

(** A world in which every request is answered by [r] and every document
    parses to [feed]. *)
Definition demo_world (r : option response) (feed : option parsed_feed) : Collaborators :=
  {| unicode_lower := ascii_lower;
     decode_html := Some;
     py_int := demo_int;
     url_basename := demo_basename;
     requests_get := fun _ _ _ => r;
     read_file := fun _ => None;
     feedparser_parse := fun _ => feed |}.

Definition demo_task : task_info :=
  {| task_name := "demo"; config_modified := false;
     options_nocache := false; options_debug := false |}.

Definition demo_url : string := "http://example.org/feed.xml".

(** The configuration [build_config] makes of a bare url. *)
Definition demo_cfg : config :=
  {| cfg_url := demo_url; cfg_username := None; cfg_password := None;
     cfg_title := None; cfg_link := LinkText "auto"; cfg_other_fields := None;
     cfg_silent := None; cfg_ascii := None; cfg_filename := None;
     cfg_group_links := false; cfg_all_entries := false |}.

Definition empty_cache : CacheState :=
  {| cs_etag := None; cs_modified := None; cs_last_entry := None |}.

Definition ok_response (body : string) : response :=
  {| status_code := 200; resp_etag := None; resp_last_modified := None;
     resp_www_authenticate := None; content := body |}.

Definition clean_feed (es : list rss_entry) : parsed_feed :=
  {| bozo := Some false; bozo_exception_of := None; feed_entries := es |}.

(** An entry with these text fields and enclosures, no date. *)
Definition demo_entry (kvs : list (string * string)) (encs : list enclosure) : rss_entry :=
  {| fields := list_to_map (map (fun kv => (fst kv, VStr (snd kv))) kvs);
     enclosures := encs; published_parsed := None; title_attr := None |}.

Definition plain_entry (t g l : string) : rss_entry :=
  demo_entry [("title", t); ("guid", g); ("link", l)] [].

(** The FlexGet entry of a plain item. *)
Definition demo_item (t g l : string) : Entry :=
  <["guid" := EVal (VStr g)]>
    (<["title" := EVal (VStr t)]> (<["url" := EVal (VStr l)]> ∅)).

(** The scenarios of the examples. *)

(** A 200 answer with a new etag whose body is a login page: the parser
    reports an XML error and no entry. *)
Definition login_page_response : response :=
  {| status_code := 200; resp_etag := Some "v2"; resp_last_modified := None;
     resp_www_authenticate := None; content := "<html>login</html>" |}.

Definition login_page_feed : parsed_feed :=
  {| bozo := Some true; bozo_exception_of := Some SAXParseException; feed_entries := [] |}.

(** A feed whose newest title carries a zero width space. *)
Definition zwsp_feed : parsed_feed :=
  clean_feed [plain_entry ("A" ++ zwsp ++ "B") "g1" "http://x/1";
              plain_entry "old" "g0" "http://x/0"].

(** A feed the parser flags with an exception of an unknown class, with
    one sound entry. *)
Definition odd_bozo_feed : parsed_feed :=
  {| bozo := Some true; bozo_exception_of := Some (OtherBozo "Weird");
     feed_entries := [plain_entry "A" "g" "http://x/1"] |}.

(** A feed whose first entry has no title. *)
Definition untitled_first_feed : parsed_feed :=
  clean_feed [demo_entry [("guid", "g"); ("link", "http://x/1")] [];
              plain_entry "B" "g2" "http://x/2"].

(** An entry with a list under [tags], and the configuration that asks
    for [tags]. *)
Definition tagged_entry : rss_entry :=
  {| fields := <["tags" := VObj true 0]> (fields (plain_entry "A" "g" "http://x/1"));
     enclosures := []; published_parsed := None; title_attr := None |}.

Definition tags_raw : raw_config :=
  {| raw_url := demo_url; raw_username := None; raw_password := None;
     raw_title := None; raw_link := None; raw_other_fields := Some [OtherText "tags"];
     raw_silent := None; raw_ascii := None; raw_filename := None;
     raw_group_links := None; raw_all_entries := None |}.

Definition group_links_raw : raw_config :=
  {| raw_url := demo_url; raw_username := None; raw_password := None;
     raw_title := None; raw_link := None; raw_other_fields := None;
     raw_silent := None; raw_ascii := None; raw_filename := None;
     raw_group_links := Some true; raw_all_entries := None |}.

Definition group_links_cfg : config :=
  {| cfg_url := demo_url; cfg_username := None; cfg_password := None;
     cfg_title := None; cfg_link := LinkText "auto"; cfg_other_fields := None;
     cfg_silent := None; cfg_ascii := None; cfg_filename := None;
     cfg_group_links := true; cfg_all_entries := false |}.

(** The configuration with the [ascii] option, and a title without any
    ASCII character ([u'\xe9'] as UTF-8). *)
Definition ascii_raw : raw_config :=
  {| raw_url := demo_url; raw_username := None; raw_password := None;
     raw_title := None; raw_link := None; raw_other_fields := None;
     raw_silent := None; raw_ascii := Some true; raw_filename := None;
     raw_group_links := None; raw_all_entries := None |}.

Definition e_acute : string :=
  String (ascii_of_nat 195) (String (ascii_of_nat 169) EmptyString).

(** A feed whose first entry has an empty title and the guid [g]. *)
Definition empty_title_feed : parsed_feed :=
  clean_feed [plain_entry "" "g" "http://x/0"; plain_entry "B" "g2" "http://x/2"].

Definition bare_enclosure (h : string) : enclosure :=
  {| href := Some h; length_attr := None; type_attr := None |}.

(** An entry with two enclosures and neither link nor guid. *)
Definition linkless_entry : rss_entry :=
  demo_entry [("title", "A")] [bare_enclosure "http://x/a"; bare_enclosure "http://x/b"].

(** An entry with three enclosures, the second without url. *)
Definition three_enclosures : list enclosure :=
  [ {| href := Some "http://x/a.torrent"; length_attr := Some "12x"; type_attr := None |};
    {| href := None; length_attr := None; type_attr := None |};
    {| href := Some "http://x/b.torrent"; length_attr := Some "300";
       type_attr := Some "application/x-bittorrent" |} ].

Definition fanout_entry : rss_entry :=
  demo_entry [("title", "A"); ("link", "http://x/page")] three_enclosures.

(** Five entries, the third of which is the one persisted by an earlier
    run. *)
Definition five_entries : list rss_entry :=
  [plain_entry "e0" "g0" "http://x/0"; plain_entry "e1" "g1" "http://x/1";
   plain_entry "e2" "g2" "http://x/2"; plain_entry "e3" "g3" "http://x/3";
   plain_entry "e4" "g4" "http://x/4"].

(* ===================================================================== *)
(** ** Which steps leave the persisted state alone *)
(* ===================================================================== *)

(** [keeps P R c]: from every state, [c] ends in a state related by [R] to
    the one it started from, unless [P] holds. *)
Definition keeps {A} (P : Prop) (R : run_state -> run_state -> Prop) (c : M A) : Prop :=
  forall st, P \/ R st (c st).2.

(** The persisted state is what it was. *)
Definition same_cache (st st' : run_state) : Prop :=
  simple_persistence st' = simple_persistence st.

(** The fingerprint slot is what it was. *)
Definition same_last_entry (st st' : run_state) : Prop :=
  cs_last_entry (simple_persistence st') = cs_last_entry (simple_persistence st).

(** The two validators are what they were. *)
Definition same_validators (st st' : run_state) : Prop :=
  cs_etag (simple_persistence st') = cs_etag (simple_persistence st) /\
  cs_modified (simple_persistence st') = cs_modified (simple_persistence st).

(** [ends_or_keeps R c]: [c] either goes on to its end, or leaves the state
    related by [R]. *)
Definition ends_or_keeps {A} (R : run_state -> run_state -> Prop) (c : M A) : Prop :=
  forall st, (exists a, (c st).1 = Next a) \/ R st (c st).2.

(** [always_next c]: [c] neither returns early nor raises. *)
Definition always_next {A} (c : M A) : Prop :=
  forall st, exists a, (c st).1 = Next a.

(** The fingerprint in the words of the specification: the text of the
    configured title field followed by the text of the guid, the empty
    text when the guid is absent.  An entry without a title text, or with
    a guid that is not text, has none. *)
Definition spec_fingerprint (cfg : config) (e : rss_entry) : option string :=
  match fields e !! default "title" (cfg_title cfg) with
  | Some (VStr t) =>
      if str_truthy t then
        match fields e !! "guid" with
        | Some (VStr g) => Some (t ++ g)
        | Some (VObj _ _) => None
        | None => Some (t ++ "")
        end
      else None
  | _ => None
  end.

(** An enclosure that has a url. *)
Definition has_href (enc : enclosure) : bool :=
  match href enc with Some _ => true | None => false end.

(** The FlexGet entry [ea] carries the url of the enclosure [enc] and, when
    the enclosure has a length, that length read as a number, 0 when it
    does not read. *)
Definition item_of_enclosure `{Collaborators} (ea : Entry) (enc : enclosure) : Prop :=
  ea !! "url" = (fun h => EVal (VStr h)) <$> href enc /\
  ea !! "size" = (fun len => EInt (default 0 (py_int len))) <$> length_attr enc.

(** The title of an entry after the clean-up of the loop body. *)
Definition clean_title (cfg : config) (t : string) : string :=
  remove_zwsp (if get_flag (cfg_ascii cfg) false then encode_ascii_ignore t else t).

(** What the loop body may change besides the log: the list of entries
    and the count of ignored items.  [same_frame] says neither changed. *)
Definition same_frame (st st' : run_state) : Prop :=
  entries st' = entries st /\ ignored st' = ignored st.

(** The fetch writes the validators only after a 200 answer, and only
    when [all_entries] is not configured. *)
Definition fetched_200 `{Collaborators} (cfg : config) : Prop :=
  exists h a r,
    is_remote (cfg_url cfg) = true /\
    requests_get (cfg_url cfg) h a = Some r /\
    status_code r = 200 /\
    cfg_all_entries cfg = false.

(** Up to the fetch, a run that goes on has neither set the "no entries
    is ok" flag nor touched the list of entries. *)
Definition same_locals (st st' : run_state) : Prop :=
  no_entries_ok st' = no_entries_ok st /\ entries st' = entries st.

(** No projected field is copied to the key [k] of the FlexGet entry. *)
Definition not_target (cfg : config) (k : string) : Prop :=
  forall f g, grab_fields_of cfg !! f = Some g -> g <> k.


From Stdlib Require Import Sorted.

(* ===================================================================== *)
(** ** The url rewriters and the directory listing *)
(* ===================================================================== *)

(** [s.replace(old, new)] for a non-empty [old]: the occurrences of [old]
    are taken from the left and do not overlap; [skip] counts the
    characters of a replaced occurrence that are still to be passed. *)
Fixpoint replace_from (old new : string) (skip : nat) (s : string) : string :=
  match s with
  | EmptyString => EmptyString
  | String c s' =>
      match skip with
      | S k => replace_from old new k s'
      | O =>
          if startswith old s
          then new ++ replace_from old new (String.length old - 1) s'
          else String c (replace_from old new 0 s')
      end
  end.

Definition py_replace (old new s : string) : string := replace_from old new 0 s.

(** [entry['url']] where a text method is called on it next: a missing key
    raises [KeyError], a value that is not text has no such method. *)
Definition entry_url_text (entry : Entry) (method : string) : exc + string :=
  match entry !! "url" with
  | Some (EVal (VStr u)) => inr u
  | Some _ => inl (AttributeError method)
  | None => inl (KeyError "url")
  end.

(** [flexget/plugins/resolve_nyaatorrents.py] *)
Module ResolveNyaaTorrents.

Definition resolvable (entry : Entry) : exc + bool :=
  match entry_url_text entry "startswith" with
  | inr u => inr (startswith "http://www.nyaatorrents.org/?page=torrentinfo&tid=" u)
  | inl e => inl e
  end.

Definition resolve (entry : Entry) : exc + Entry :=
  match entry_url_text entry "replace" with
  | inr u => inr (<["url" := EVal (VStr (py_replace "torrentinfo" "download" u))]> entry)
  | inl e => inl e
  end.

End ResolveNyaaTorrents.

(** [flexget/plugins/urlrewrite_btchat.py] *)
Module UrlRewriteBtChat.

Definition url_rewritable (entry : Entry) : exc + bool :=
  match entry_url_text entry "startswith" with
  | inr u => inr (startswith "http://www.bt-chat.com/download.php" u)
  | inl e => inl e
  end.

Definition url_rewrite (entry : Entry) : exc + Entry :=
  match entry_url_text entry "replace" with
  | inr u => inr (<["url" := EVal (VStr (py_replace "download.php" "download1.php" u))]> entry)
  | inl e => inl e
  end.

End UrlRewriteBtChat.

(** [flexget/plugins/urlrewrite_deadfrog.py] *)
Module UrlRewriteDeadFrog.

(** What the rewriter raises: the [KeyError] of [entry['url']], what
    [urlopener] raises on a page it cannot fetch, and
    [UrlRewritingError]. *)
Inductive deadfrog_error :=
| EntryError (e : exc)
| FetchError
| UrlRewritingError.

Definition url_rewritable (entry : Entry) : exc + bool :=
  match entry_url_text entry "startswith" with
  | inr url =>
      if startswith "http://www.deadfrog.us/download/" url then inr false
      else if startswith "http://www.deadfrog.us/" url || startswith "http://deadfrog.us/" url
      then inr true
      else inr false
  | inl e => inl e
  end.

Section DeadFrog.

(** The network and the html parser: [urlopener] on the request for a url
    ([None]: it raises), [get_soup] ([None]: it raises), and [soup.find]
    for the first anchor whose [href] has a match of
    [download/\d+/.*\.torrent], giving that [href]. *)
Variables page soup : Type.
Variable urlopener : evalue -> option page.
Variable get_soup : page -> option soup.
Variable find_download_link : soup -> option string.

Definition parse_download_page (url : evalue) : deadfrog_error + string :=
  match urlopener url with
  | None => inl FetchError
  | Some p =>
      match get_soup p with
      | None => inl UrlRewritingError
      | Some s =>
          match find_download_link s with
          | None => inl UrlRewritingError
          | Some href => inr ("http://www.deadfrog.us/" ++ href)
          end
      end
  end.

Definition url_rewrite (entry : Entry) : deadfrog_error + Entry :=
  match entry !! "url" with
  | None => inl (EntryError (KeyError "url"))
  | Some url =>
      match parse_download_page url with
      | inl e => inl e
      | inr new => inr (<["url" := EVal (VStr new)]> entry)
      end
  end.

End DeadFrog.

End UrlRewriteDeadFrog.

(** [flexget/plugins/input/listdir.py] *)
Module Listdir.

(** The configuration: one path, or a list of paths. *)
Inductive listdir_config :=
| OnePath (p : string)
| Paths (l : list string).

(** What listing a path raises: [unicode(path)] on a byte string that is
    not ASCII, [os.listdir] on a path it cannot list. *)
Inductive listdir_error :=
| UnicodeDecodeError
| OSError.

Section Listdir.

(** The operating system: [os.path.expanduser], [os.listdir(unicode(path))]
    with what it raises, and [os.path.join]. *)
Variable expanduser : string -> string.
Variable os_listdir : string -> listdir_error + list string.
Variable path_join : string -> string -> string.

(** The Entry made of one name in a directory. *)
Definition entry_of_name (path name : string) : Entry :=
  let filepath := path_join path name in
  let filepath' := if negb (startswith "/" filepath) then "/" ++ filepath else filepath in
  <["filename" := EVal (VStr name)]>
    (<["location" := EVal (VStr (path_join path name))]>
      (<["url" := EVal (VStr ("file://" ++ filepath'))]>
        (<["title" := EVal (VStr name)]> ∅))).

(** [for path in config: ...], appending to [entries]. *)
Fixpoint list_paths (paths : list string) (entries : list Entry)
    : listdir_error + list Entry :=
  match paths with
  | [] => inr entries
  | path :: rest =>
      let path' := expanduser path in
      match os_listdir path' with
      | inl err => inl err
      | inr names => list_paths rest (entries ++ map (entry_of_name path') names)%list
      end
  end.

Definition on_task_input (config : listdir_config) : listdir_error + list Entry :=
  list_paths (match config with OnePath p => [p] | Paths l => l end) [].

End Listdir.

End Listdir.

(* ===================================================================== *)
(** ** Notions used by the further properties *)
(* ===================================================================== *)

(** The sort key of an entry, [x['published_parsed']]; an entry without
    the key counts as [None] here (the sort itself raises on it). *)
Definition entry_key (e : rss_entry) : option struct_time :=
  default None (published_parsed e).

(** [a] is not older than [b]. *)
Definition not_older (a b : rss_entry) : Prop :=
  time_lt (entry_key a) (entry_key b) = false.

(** The keyed entries in descending order of their keys. *)
Definition keys_descending (l : list (option struct_time * rss_entry)) : Prop :=
  StronglySorted (fun x y => time_lt x.1 y.1 = false) l.

(** The bytes of a text. *)
Fixpoint bytes_of (s : string) : list ascii :=
  match s with
  | EmptyString => []
  | String c s' => c :: bytes_of s'
  end.

(** An item of [other_fields] that is a dict without key. *)
Definition is_empty_dict (item : other_field) : bool :=
  match item with OtherDict [] => true | _ => false end.

(** The [other_fields] option as written, [[]] when it is left out. *)
Definition raw_other_items (c : plugin_config) : list other_field :=
  match c with
  | ConfigUrl _ => []
  | ConfigDict rc => default [] (raw_other_fields rc)
  end.

(** The bozo exceptions on which the run gives up when there is no entry:
    an XML error and an exception of an unknown class. *)
Definition fatal_without_entries (ex : bozo_exception) : bool :=
  match ex with
  | SAXParseException | OtherBozo _ => true
  | _ => false
  end.

(** The bozo exceptions that are raised again as they are. *)
Definition is_transport (ex : bozo_exception) : bool :=
  match ex with
  | BadStatusLine | BozoIOError => true
  | _ => false
  end.

(** The name of the file the received data is saved to. *)
Definition received_name (task : task_info) (data : string) : string :=
  task_name task ++ "." ++ (if contains "<html>" (ascii_lower data) then "html" else "xml").

(** The urls of a FlexGet entry, [[]] when the key is missing. *)
Definition entry_urls (e : Entry) : list value :=
  match e !! "urls" with
  | Some (EList l) => l
  | _ => []
  end.

(** The value of a slot of the persisted state after a 200 answer: the
    header of the answer when it is a non-empty text and caching is in
    use, the stored value otherwise. *)
Definition saved_slot (cfg : config) (header : option string) (old : option value)
    : option value :=
  match header with
  | Some t => if negb (cfg_all_entries cfg) && str_truthy t then Some (VStr t) else old
  | None => old
  end.

(** What the loop body leaves of an entry: everything but the title
    attribute. *)
Definition same_entry_data (e e' : rss_entry) : Prop :=
  fields e' = fields e /\
  enclosures e' = enclosures e /\
  published_parsed e' = published_parsed e.

(** The entry [e'] is [e] after a full pass of the loop body: skipped
    without title, or with the cleaned title as its title attribute. *)
Definition scanned_entry (cfg : config) (e e' : rss_entry) : Prop :=
  match fields e !! default "title" (cfg_title cfg) with
  | Some (VStr t) =>
      if str_truthy t then e' = set_title_attr e (VStr (clean_title cfg t)) else e' = e
  | Some (VObj b _) => b = false /\ e' = e
  | None => e' = e
  end.

(* ===================================================================== *)
(** ** Properties of the run *)
(* ===================================================================== *)

Section Keeps.

Context {P : Prop} {R : run_state -> run_state -> Prop}.
Hypothesis R_trans : forall a b c, R a b -> R b c -> R a c.

Lemma keeps_bind {A B} (c : M A) (k : A -> M B) :
  keeps P R c -> (forall a, keeps P R (k a)) -> keeps P R (bind c k).
Proof.
  intros Hc Hk st. unfold bind.
  destruct (Hc st) as [HP | Hst]; [now left |].
  destruct (c st) as [[a | r | e] st1]; simpl in *; [| now right | now right].
  destruct (Hk a st1) as [HP | Hst1]; [now left | right].
  eapply R_trans; eauto.
Qed.

End Keeps.

Lemma keeps_weaken {A} (P : Prop) (R R' : run_state -> run_state -> Prop) (c : M A) :
  (forall a b, R a b -> R' a b) -> keeps False R c -> keeps P R' c.
Proof. intros HR Hc st. destruct (Hc st) as [[] | H]. right. auto. Qed.

Lemma same_cache_trans a b c : same_cache a b -> same_cache b c -> same_cache a c.
Proof. unfold same_cache. congruence. Qed.

Lemma same_last_entry_trans a b c :
  same_last_entry a b -> same_last_entry b c -> same_last_entry a c.
Proof. unfold same_last_entry. congruence. Qed.

Lemma same_validators_trans a b c :
  same_validators a b -> same_validators b c -> same_validators a c.
Proof. unfold same_validators. intros [? ?] [? ?]. split; congruence. Qed.

Lemma same_cache_last_entry a b : same_cache a b -> same_last_entry a b.
Proof. unfold same_cache, same_last_entry. congruence. Qed.

Lemma same_cache_validators a b : same_cache a b -> same_validators a b.
Proof. unfold same_cache, same_validators. intros ->. auto. Qed.

Lemma same_frame_trans a b c : same_frame a b -> same_frame b c -> same_frame a c.
Proof. unfold same_frame. intros [? ?] [? ?]. split; congruence. Qed.

(** One step of a proof that a computation keeps the persisted state (or
    the frame): take the computation apart along its binds and case
    distinctions; a primitive step is settled by computation. *)
Ltac keeps_step :=
  match goal with
  | |- keeps _ _ (bind _ _) =>
      first [ apply (keeps_bind same_cache_trans)
            | apply (keeps_bind same_frame_trans) ]; [| intros ?]
  | |- keeps _ _ (match ?x with _ => _ end) => destruct x
  | |- keeps _ _ (let _ := _ in _) => cbv zeta
  | H : _ |- keeps _ _ _ => solve [apply H]
  | |- keeps _ _ _ =>
      solve [intros ?; right; first [reflexivity | split; reflexivity]]
  end.

Ltac keeps_tac := repeat keeps_step.

Section Properties.

Context `{Collaborators}.

Lemma keeps_py_concat a b : keeps False same_cache (py_concat a b).
Proof. unfold py_concat. keeps_tac. Qed.

Lemma keeps_fingerprint e : keeps False same_cache (fingerprint e).
Proof. unfold fingerprint. keeps_tac. apply keeps_py_concat. Qed.

Lemma keeps_process_invalid_content task d :
  keeps False same_cache (process_invalid_content task d).
Proof. unfold process_invalid_content. keeps_tac. Qed.

Lemma keeps_add_enclosure_info e enc f m :
  keeps False same_cache (add_enclosure_info e enc f m).
Proof. unfold add_enclosure_info. keeps_tac. Qed.

Lemma keeps_grab_fields cfg entry items :
  forall ea, keeps False same_cache (grab_fields cfg entry items ea).
Proof.
  induction items as [| [f g] rest IH]; intros ea; simpl; keeps_tac.
Qed.

Lemma keeps_add_entry cfg entry t ea : keeps False same_cache (add_entry cfg entry t ea).
Proof. unfold add_entry. keeps_tac. apply keeps_grab_fields. Qed.

Lemma keeps_add_enclosures cfg entry t encs :
  keeps False same_cache (add_enclosures cfg entry t encs).
Proof.
  induction encs as [| enc rest IH]; simpl; keeps_tac.
  - apply keeps_add_enclosure_info.
  - apply keeps_add_entry.
Qed.

Lemma keeps_enclosure_hrefs encs urls : keeps False same_cache (enclosure_hrefs encs urls).
Proof. induction encs as [| enc rest IH]; simpl; keeps_tac. Qed.

Lemma keeps_resolve_links cfg entry : keeps False same_cache (resolve_links cfg entry).
Proof.
  unfold resolve_links, group_links, entry_getitem. keeps_tac;
    try apply keeps_add_enclosure_info; try apply keeps_enclosure_hrefs.
Qed.

Lemma keeps_loop_body cfg last entry : keeps False same_cache (loop_body cfg last entry).
Proof.
  unfold loop_body. keeps_tac;
    try apply keeps_fingerprint; try apply keeps_add_enclosures;
    try apply keeps_resolve_links; try apply keeps_add_entry.
Qed.

(** The loop over the entries never writes the persisted state. *)
Lemma keeps_rss_loop cfg last es : keeps False same_cache (rss_loop cfg last es).
Proof.
  induction es as [| e rest IH]; simpl; keeps_tac. apply keeps_loop_body.
Qed.

Ltac keeps_known :=
  first
    [ apply keeps_py_concat | apply keeps_fingerprint
    | apply keeps_process_invalid_content | apply keeps_add_enclosure_info
    | apply keeps_grab_fields | apply keeps_add_entry | apply keeps_add_enclosures
    | apply keeps_enclosure_hrefs | apply keeps_resolve_links
    | apply keeps_loop_body | apply keeps_rss_loop ].

Ltac keeps_all := repeat (keeps_step || keeps_known).

Lemma keeps_build_config c : keeps False same_cache (build_config c).
Proof. unfold build_config. keeps_all. Qed.

Lemma keeps_conditional_headers b : keeps False same_cache (conditional_headers b).
Proof. unfold conditional_headers. keeps_all. Qed.

Lemma keeps_check_bozo task cfg d rss : keeps False same_cache (check_bozo task cfg d rss).
Proof. unfold check_bozo. keeps_all. Qed.

Lemma keeps_sort_entries es : keeps False same_cache (sort_entries es).
Proof. unfold sort_entries. keeps_all. Qed.

(** [build_config] neither reads nor writes the state. *)
Lemma build_config_state c st : (build_config c st).2 = st.
Proof.
  unfold build_config, bind, ret, raise.
  destruct (raw_other_fields _) as [[| item l] |]; simpl; try reflexivity.
  destruct (build_other_field item); [| reflexivity].
  destruct (build_other_fields l); reflexivity.
Qed.

Lemma set_persistence_last_entry f :
  (forall cs, cs_last_entry (f cs) = cs_last_entry cs) ->
  keeps False same_last_entry (set_persistence f).
Proof. intros Hf st. right. apply Hf. Qed.

Lemma keeps_save_validators_last_entry cfg r :
  keeps False same_last_entry (save_validators cfg r).
Proof.
  unfold save_validators.
  assert (Hlog : forall l t, keeps False same_last_entry (log_ l t)).
  { intros l t st. right. reflexivity. }
  assert (Hret : forall a : unit, keeps False same_last_entry (ret a)).
  { intros a st. right. reflexivity. }
  destruct (negb _); [| apply Hret].
  apply (keeps_bind same_last_entry_trans); [| intros _].
  - destruct (resp_etag r) as [t |]; [| apply Hret].
    destruct (str_truthy t); [| apply Hret].
    apply (keeps_bind same_last_entry_trans); [| intros _; apply Hlog].
    apply set_persistence_last_entry. reflexivity.
  - destruct (resp_last_modified r) as [m |]; [| apply Hret].
    destruct (str_truthy m); [| apply Hret].
    apply (keeps_bind same_last_entry_trans); [| intros _; apply Hlog].
    apply set_persistence_last_entry. reflexivity.
Qed.

Lemma keeps_get_content_last_entry cfg h :
  keeps False same_last_entry (get_content cfg h).
Proof.
  unfold get_content.
  destruct (is_remote _).
  - destruct (requests_get _ _ _) as [r |]; [| intros st; right; reflexivity].
    repeat match goal with
           | |- keeps _ _ (if ?b then _ else _) => destruct b
           | |- keeps _ _ (match ?x with _ => _ end) => destruct x
           end;
      try (intros st; right; reflexivity).
    apply (keeps_bind same_last_entry_trans).
    + apply keeps_save_validators_last_entry.
    + intros _ st. right. reflexivity.
  - destruct (read_file _); intros st; right; reflexivity.
Qed.

Lemma keeps_get_content_validators cfg h :
  keeps (fetched_200 cfg) same_validators (get_content cfg h).
Proof.
  unfold get_content.
  destruct (is_remote _) eqn:Hremote.
  - destruct (requests_get _ _ _) as [r |] eqn:Hget; [| intros st; right; split; reflexivity].
    destruct (Z.eqb_spec (status_code r) 304); [intros st; right; split; reflexivity |].
    destruct (Z.eqb_spec (status_code r) 401).
    { destruct (resp_www_authenticate r); intros st; right; split; reflexivity. }
    destruct (Z.eqb_spec (status_code r) 404); [intros st; right; split; reflexivity |].
    destruct (Z.eqb_spec (status_code r) 500); [intros st; right; split; reflexivity |].
    destruct (Z.eqb_spec (status_code r) 200) as [H200 | ]; simpl;
      [| intros st; right; split; reflexivity].
    destruct (cfg_all_entries cfg) eqn:Hall.
    + unfold save_validators. rewrite Hall. simpl. intros st. right. split; reflexivity.
    + intros st. left. exists h, (match cfg_username cfg, cfg_password cfg with
                                  | Some u, Some p => Some (u, p)
                                  | _, _ => None
                                  end), r. auto.
  - destruct (read_file _); intros st; right; split; reflexivity.
Qed.

(** Saving the last spot either raises before it writes, or goes on;
    it never touches the validators. *)
Lemma save_last_entry_ends_or_keeps es : ends_or_keeps same_cache (save_last_entry es).
Proof.
  intros st. destruct es as [| e0 rest]; simpl; [left; eexists; reflexivity |].
  unfold bind, log_, fingerprint. simpl.
  destruct (getattr_entry e0 "title") as [t |]; [| right; reflexivity].
  unfold py_concat.
  destruct t; [| right; reflexivity].
  destruct (default _ _); [| right; reflexivity].
  left. eexists. reflexivity.
Qed.

Lemma keeps_save_last_entry_validators (P : Prop) es :
  keeps P same_validators (save_last_entry es).
Proof.
  intros st. right. destruct es as [| e0 rest]; simpl; [split; reflexivity |].
  unfold bind, log_, fingerprint. simpl.
  destruct (getattr_entry e0 "title") as [t |]; [| split; reflexivity].
  unfold py_concat.
  destruct t; [| split; reflexivity].
  destruct (default _ _); split; reflexivity.
Qed.

Lemma ends_or_keeps_of_keeps {A} R (c : M A) : keeps False R c -> ends_or_keeps R c.
Proof. intros Hc st. destruct (Hc st) as [[] | Hst]. now right. Qed.

Lemma ends_or_keeps_bind {A B} R (c : M A) (k : A -> M B) :
  (forall a b d, R a b -> R b d -> R a d) ->
  keeps False R c -> (forall a, ends_or_keeps R (k a)) -> ends_or_keeps R (bind c k).
Proof.
  intros Htrans Hc Hk st. unfold bind.
  destruct (Hc st) as [[] | Hst].
  destruct (c st) as [[a | r | e] st1]; simpl in *; [| now right | now right].
  destruct (Hk a st1) as [Hnext | Hst1]; [now left | right].
  eapply Htrans; eauto.
Qed.

Lemma ends_or_keeps_bind_next {A B} R (c : M A) (k : A -> M B) :
  ends_or_keeps R c -> (forall a, always_next (k a)) -> ends_or_keeps R (bind c k).
Proof.
  intros Hc Hk st. unfold bind.
  destruct (Hc st) as [[a Ha] | Hst].
  - destruct (c st) as [[a' | r | e] st1]; simpl in *; try discriminate.
    left. apply Hk.
  - destruct (c st) as [[a' | r | e] st1]; simpl in *; [| now right | now right].
    left. apply Hk.
Qed.

Ltac keeps_full :=
  repeat first
    [ keeps_step | keeps_known
    | apply keeps_build_config | apply keeps_conditional_headers
    | apply keeps_check_bozo | apply keeps_sort_entries ].

Ltac keeps_last_entry :=
  first
    [ apply keeps_get_content_last_entry
    | apply (keeps_weaken _ _ _ _ same_cache_last_entry); solve [keeps_full] ].

Ltac keeps_validators :=
  first
    [ apply keeps_get_content_validators
    | apply keeps_save_last_entry_validators
    | apply (keeps_weaken _ _ _ _ same_cache_validators); solve [keeps_full] ].

(** The steps after the fingerprint is saved: the summary warning and
    [return entries]. *)
Lemma epilogue_always_next (cfg : config) :
  always_next
    (st <- get_state ;;
     (if (0 <? ignored st)%nat && negb (get_flag (cfg_silent cfg) false)
      then log_ LWarning "Skipped %s RSS-entries without required information (title, link or enclosures)"
      else ret tt) ;;
     ret (entries st)).
Proof.
  intros st. unfold bind, get_state. simpl.
  destruct (_ && _); simpl; eexists; reflexivity.
Qed.

Lemma on_task_input_last_entry task c :
  ends_or_keeps same_last_entry (on_task_input task c).
Proof.
  unfold on_task_input.
  repeat match goal with
         | |- ends_or_keeps _ (bind (save_last_entry ?es) _) =>
             apply ends_or_keeps_bind_next;
             [ intros st0; destruct (save_last_entry_ends_or_keeps es st0);
               [now left | right; now apply same_cache_last_entry]
             | intros _; apply epilogue_always_next ]
         | |- ends_or_keeps _ (bind _ _) =>
             apply (ends_or_keeps_bind _ _ _ same_last_entry_trans);
             [ keeps_last_entry | intros ? ]
         | |- ends_or_keeps _ (let _ := _ in _) => cbv zeta
         | |- ends_or_keeps _ (if ?b then _ else _) => destruct b
         | |- ends_or_keeps _ _ => apply ends_or_keeps_of_keeps; keeps_last_entry
         end.
Qed.

Lemma bind_unfold {A B} (c : M A) (k : A -> M B) st :
  bind c k st =
  match c st with
  | (Next a, st') => k a st'
  | (Return r, st') => (Return r, st')
  | (Raise e, st') => (Raise e, st')
  end.
Proof. reflexivity. Qed.

Lemma log_eq l t st : log_ l t st = (Next tt, (log_ l t st).2).
Proof. reflexivity. Qed.

Lemma on_task_input_validators task c st :
  (exists cfg, (build_config c st).1 = Next cfg /\ fetched_200 cfg) \/
  same_validators st (on_task_input task c st).2.
Proof.
  unfold on_task_input. rewrite bind_unfold.
  pose proof (build_config_state c st) as Hst.
  destruct (build_config c st) as [[cfg | r | e] st1]; simpl in Hst; subst st1;
    [| right; split; reflexivity | right; split; reflexivity].
  match goal with
  | |- _ \/ same_validators st (?rest st).2 =>
      assert (Hrest : keeps (fetched_200 cfg) same_validators rest)
  end.
  { repeat match goal with
           | |- keeps _ _ (bind _ _) =>
               apply (keeps_bind same_validators_trans); [keeps_validators | intros ?]
           | |- keeps _ _ (let _ := _ in _) => cbv zeta
           | |- keeps _ _ (if ?b then _ else _) => destruct b
           | |- keeps _ _ _ => keeps_validators
           end. }
  destruct (Hrest st) as [HP | HR]; [left; exists cfg; auto | now right].
Qed.

(** C1 (amended).  The persisted state is written at two points of a run.
    The fingerprint slot is written only by a run that goes on to its last
    line: a run that returns early (a 304 answer, an empty body, an
    unignored bozo fault) or raises leaves it as it was.  The etag and
    last-modified slots are written by the fetch itself, before the
    document is parsed, and only after a 200 answer when [all_entries] is
    not configured.  The loop over the entries writes nothing. *)
Theorem cache_state_write_points task c :
  (forall st,
      (exists out, (on_task_input task c st).1 = Next out) \/
      same_last_entry st (on_task_input task c st).2) /\
  (forall st,
      (exists cfg, (build_config c st).1 = Next cfg /\ fetched_200 cfg) \/
      same_validators st (on_task_input task c st).2) /\
  (forall cfg h st,
      (exists r,
          requests_get (cfg_url cfg) h
            (match cfg_username cfg, cfg_password cfg with
             | Some u, Some p => Some (u, p)
             | _, _ => None
             end) = Some r /\
          status_code r = 200 /\ cfg_all_entries cfg = false) \/
      same_validators st (get_content cfg h st).2) /\
  (forall cfg last es st,
      simple_persistence (rss_loop cfg last es st).2 = simple_persistence st).
Proof.
  split; [| split; [| split]].
  - apply on_task_input_last_entry.
  - apply on_task_input_validators.
  - intros cfg h st. unfold get_content.
    destruct (is_remote _).
    + destruct (requests_get _ _ _) as [r |] eqn:Hget; [| right; split; reflexivity].
      destruct (Z.eqb_spec (status_code r) 304); [right; split; reflexivity |].
      destruct (Z.eqb_spec (status_code r) 401).
      { destruct (resp_www_authenticate r); right; split; reflexivity. }
      destruct (Z.eqb_spec (status_code r) 404); [right; split; reflexivity |].
      destruct (Z.eqb_spec (status_code r) 500); [right; split; reflexivity |].
      destruct (Z.eqb_spec (status_code r) 200) as [H200 |]; simpl;
        [| right; split; reflexivity].
      destruct (cfg_all_entries cfg) eqn:Hall.
      * unfold save_validators. rewrite Hall. right. split; reflexivity.
      * left. exists r. auto.
    + destruct (read_file _); right; split; reflexivity.
  - intros cfg last es st. destruct (keeps_rss_loop cfg last es st) as [[] | Hst].
    exact Hst.
Qed.

Lemma conditional_headers_locals b st :
  same_locals st (conditional_headers b st).2.
Proof.
  unfold conditional_headers. destruct b; [split; reflexivity |].
  unfold bind, get_persistence. simpl.
  destruct (cs_etag _) as [v |]; [destruct (truthy v) |];
    (destruct (cs_modified _) as [[s | b' n] |];
     [destruct (str_truthy s) | destruct b' |]); split; reflexivity.
Qed.

Lemma get_content_locals cfg h st data st' :
  get_content cfg h st = (Next data, st') -> same_locals st st'.
Proof.
  unfold get_content.
  destruct (is_remote _).
  - destruct (requests_get _ _ _) as [r |]; [| discriminate].
    destruct (status_code r =? 304); [discriminate |].
    destruct (status_code r =? 401); [destruct (resp_www_authenticate r); discriminate |].
    destruct (status_code r =? 404); [discriminate |].
    destruct (status_code r =? 500); [discriminate |].
    destruct (negb (status_code r =? 200)); [discriminate |].
    unfold save_validators, bind.
    destruct (negb (cfg_all_entries cfg));
      [destruct (resp_etag r) as [t |]; [destruct (str_truthy t) |];
       (destruct (resp_last_modified r) as [m |]; [destruct (str_truthy m) |]) |];
      simpl; intros [= <- <-]; split; reflexivity.
  - destruct (read_file _); [| discriminate].
    intros [= <- <-]. split; reflexivity.
Qed.

(** C10.  If the fetched body is empty, the run logs an error and returns
    [None]: no list of items, no "no entries is ok" flag, no exception. *)
Theorem empty_body_returns_none task c cs cfg h st2 st3 :
  (build_config c (initial_state cs)).1 = Next cfg ->
  conditional_headers
    (cfg_all_entries cfg || config_modified task || options_nocache task)
    (log_ LDebug "Requesting task `%s` url `%s`" (initial_state cs)).2 = (Next h, st2) ->
  get_content cfg h st2 = (Next "", st3) ->
  run task c cs =
    (Returned None, (log_ LError "No data recieved for rss feed." st3).2) /\
  no_entries_ok st3 = false /\
  entries st3 = [].
Proof.
  intros Hcfg Hh Hget.
  pose proof (build_config_state c (initial_state cs)) as Hst.
  pose proof (conditional_headers_locals
                (cfg_all_entries cfg || config_modified task || options_nocache task)
                (log_ LDebug "Requesting task `%s` url `%s`" (initial_state cs)).2) as [Hf2 He2].
  rewrite Hh in Hf2, He2. simpl in Hf2, He2.
  destruct (get_content_locals _ _ _ _ _ Hget) as [Hf3 He3].
  split; [| split; congruence].
  unfold run, on_task_input. rewrite bind_unfold.
  destruct (build_config c (initial_state cs)) as [o st1]. simpl in Hcfg, Hst. subst o st1.
  rewrite bind_unfold, (log_eq LDebug _ (initial_state cs)). cbv zeta.
  rewrite bind_unfold, Hh, bind_unfold, Hget. reflexivity.
Qed.

(** The scan stops at an entry only when its fingerprint is the stored
    one. *)
Lemma loop_body_break cfg fp p st p' st' :
  loop_body cfg (Some (VStr fp)) p st = (Next (Break, p'), st') ->
  spec_fingerprint cfg p = Some fp.
Proof.
  unfold loop_body, spec_fingerprint.
  destruct (fields p !! default "title" (cfg_title cfg)) as [[t | b n] |] eqn:Ht;
    [| | discriminate].
  - simpl. destruct (str_truthy t) eqn:Htt; [| discriminate].
    rewrite bind_unfold. unfold fingerprint, getattr_entry. simpl.
    destruct (fields p !! "guid") as [[g | b n] |]; simpl; [| discriminate |].
    all: case_bool_decide as Hfp; [intros _; congruence |].
    all: repeat
           match goal with
           | |- bind _ _ _ = _ -> _ => rewrite bind_unfold
           | |- (match ?x with _ => _ end) = _ -> _ =>
               first [ destruct x as [[? | ? | ?] ?] | destruct x ]
           | |- (match ?x with _ => _ end) _ = _ -> _ => destruct x
           | |- _ = _ -> _ => discriminate
           end.
  - simpl. destruct b; [| discriminate].
    rewrite bind_unfold. unfold fingerprint, getattr_entry. simpl. discriminate.
Qed.

(** At the entry whose fingerprint is the stored one the scan stops. *)
Lemma loop_body_match cfg e t g st :
  fields e !! default "title" (cfg_title cfg) = Some (VStr t) ->
  str_truthy t = true ->
  default (VStr "") (fields e !! "guid") = VStr g ->
  loop_body cfg (Some (VStr (t ++ g))) e st =
    (Next (Break, set_title_attr e (VStr t)),
     (set_no_entries_ok (log_ LVerbose "Not processing entries from last run." st).2).2).
Proof.
  intros Ht Htt Hg. unfold loop_body. rewrite Ht. simpl. rewrite Htt.
  rewrite bind_unfold. unfold fingerprint, getattr_entry. simpl.
  rewrite Hg. simpl. rewrite bool_decide_eq_true_2 by reflexivity.
  reflexivity.
Qed.

(** C5 (amended).  In a scan against the stored fingerprint [t ++ g],
    the first entry whose non-empty title text [t] and guid text [g] (empty
    when the guid is absent) give that fingerprint ends the loop: the
    entries before it are scanned as they would be on their own and none of
    them stops the scan; the entry itself and those after it add nothing.
    An entry whose title field is missing or empty stops no scan, whatever
    the stored fingerprint. *)
Theorem dedup_horizon cfg pre e post t g st :
  (forall p, p ∈ pre -> spec_fingerprint cfg p <> Some (t ++ g)) ->
  fields e !! default "title" (cfg_title cfg) = Some (VStr t) ->
  str_truthy t = true ->
  default (VStr "") (fields e !! "guid") = VStr g ->
  rss_loop cfg (Some (VStr (t ++ g))) (pre ++ e :: post) st =
    (scanned <- rss_loop cfg (Some (VStr (t ++ g))) pre ;;
     log_ LVerbose "Not processing entries from last run." ;;
     set_no_entries_ok ;;
     ret (scanned ++ set_title_attr e (VStr t) :: post)%list) st /\
  (forall p st0 p' st', p ∈ pre ->
     loop_body cfg (Some (VStr (t ++ g))) p st0 <> (Next (Break, p'), st')) /\
  (forall fp p st0 p' st',
     get_truthy (fields p !! default "title" (cfg_title cfg)) = false ->
     loop_body cfg (Some (VStr fp)) p st0 <> (Next (Break, p'), st')).
Proof.
  intros Hpre Ht Htt Hg.
  assert (Huntitled : forall fp p st0 p' st',
            get_truthy (fields p !! default "title" (cfg_title cfg)) = false ->
            loop_body cfg (Some (VStr fp)) p st0 <> (Next (Break, p'), st')).
  { intros fp p st0 p' st' Hno Hbreak. apply loop_body_break in Hbreak.
    revert Hbreak. unfold spec_fingerprint.
    destruct (fields p !! default "title" (cfg_title cfg)) as [[s | b n] |];
      try discriminate.
    simpl in Hno. rewrite Hno. discriminate. }
  split; [| split; [| exact Huntitled]].
  - revert st. induction pre as [| p pre IH]; intros st.
    + simpl. rewrite !bind_unfold. rewrite (loop_body_match _ _ _ _ _ Ht Htt Hg).
      reflexivity.
    + simpl. rewrite !bind_unfold.
      destruct (loop_body cfg _ p st) as [[[[] p'] | r | ex] st1] eqn:Hp;
        [| | reflexivity | reflexivity].
      * rewrite !bind_unfold, IH.
        2:{ intros q Hq. apply Hpre. now right. }
        rewrite !bind_unfold.
        destruct (rss_loop cfg _ pre st1) as [[scanned | r | ex] st2]; reflexivity.
      * exfalso. apply (Hpre p); [now left |].
        eapply loop_body_break; eauto.
  - intros p st0 p' st' Hp Hbreak. apply (Hpre p Hp).
    eapply loop_body_break; eauto.
Qed.

(** *** What the loop body adds to the list of entries *)

Lemma frame_fingerprint e : keeps False same_frame (fingerprint e).
Proof. unfold fingerprint, py_concat. keeps_tac. Qed.

Lemma frame_add_enclosure_info e enc f m :
  keeps False same_frame (add_enclosure_info e enc f m).
Proof. unfold add_enclosure_info. keeps_tac. Qed.

Lemma frame_grab_fields cfg entry items :
  forall ea, keeps False same_frame (grab_fields cfg entry items ea).
Proof. induction items as [| [f g] rest IH]; intros ea; simpl; keeps_tac. Qed.

Lemma frame_enclosure_hrefs encs urls : keeps False same_frame (enclosure_hrefs encs urls).
Proof. induction encs as [| enc rest IH]; simpl; keeps_tac. Qed.

Lemma frame_resolve_links cfg entry : keeps False same_frame (resolve_links cfg entry).
Proof.
  unfold resolve_links, group_links, entry_getitem. keeps_tac;
    try apply frame_add_enclosure_info; try apply frame_enclosure_hrefs.
Qed.

(** From a [keeps] fact to the two states of one run of the step. *)
Lemma keeps_run {A} R (c : M A) st o st' :
  keeps False R c -> c st = (o, st') -> R st st'.
Proof. intros Hc Hrun. destruct (Hc st) as [[] | HR]. now rewrite Hrun in HR. Qed.

(** The copy loop leaves alone every key that is not the FlexGet name of a
    field it copies. *)
Lemma grab_fields_lookup cfg entry k items :
  (forall f g, (f, g) ∈ items -> g <> k) ->
  forall ea st ea' st',
    grab_fields cfg entry items ea st = (Next ea', st') -> ea' !! k = ea !! k.
Proof.
  induction items as [| [f g] rest IH]; intros Hk ea st ea' st'; simpl.
  - intros [= <- _]. reflexivity.
  - assert (Hrest : forall f' g', (f', g') ∈ rest -> g' <> k).
    { intros f' g' Hin. apply (Hk f' g'). now right. }
    assert (Hg : g <> k) by (apply (Hk f g); now left).
    destruct (fields entry !! f) as [raw |]; [| now apply IH].
    destruct (getattr_entry entry f) as [[s | b n] |]; [| | now apply IH].
    + destruct (str_truthy s); simpl.
      * destruct raw as [r | b n]; [| discriminate].
        destruct (decode_html r).
        -- intros Hrun. rewrite (IH Hrest _ _ _ _ Hrun).
           now apply lookup_insert_ne.
        -- rewrite bind_unfold, log_eq. now apply IH.
      * rewrite bind_unfold, log_eq. now apply IH.
    + rewrite bind_unfold, log_eq. destruct (cfg_other_fields cfg); discriminate.
Qed.

(** [add_entry] appends exactly one entry, which carries the cleaned
    title and every key of [ea] that the copy loop does not write. *)
Lemma add_entry_spec cfg entry t ea st u st' :
  add_entry cfg entry t ea st = (Next u, st') ->
  exists ea',
    entries st' = (entries st ++ [ea'])%list /\
    ignored st' = ignored st /\
    (not_target cfg "title" -> ea' !! "title" = Some (EVal (VStr t))) /\
    (forall k, not_target cfg k ->
       k <> "title" -> k <> "rss_pubdate" ->
       k <> "basic_auth_username" -> k <> "basic_auth_password" ->
       ea' !! k = ea !! k).
Proof.
  unfold add_entry. rewrite bind_unfold.
  destruct (grab_fields _ _ _ _ st) as [[ea1 | r | e] st1] eqn:Hgrab; try discriminate.
  pose proof (keeps_run _ _ _ _ _ (frame_grab_fields _ _ _ _) Hgrab) as [He Hi].
  assert (Hlookup : forall k, not_target cfg k ->
            ea1 !! k = (<["title" := EVal (VStr t)]> ea) !! k).
  { intros k Hk. eapply grab_fields_lookup; [| exact Hgrab].
    intros f g Hin. apply (Hk f g). now apply elem_of_map_to_list. }
  cbv zeta. unfold append_entry. intros [= _ <-]. simpl.
  eexists. split; [rewrite He; reflexivity |]. split; [exact Hi |]. split.
  - intros Hk.
    destruct (published_parsed entry) as [[[| x tm] |] |];
      destruct (cfg_username cfg), (cfg_password cfg);
      rewrite ?lookup_insert_ne by done;
      rewrite (Hlookup _ Hk); apply lookup_insert_eq.
  - intros k Hk H1 H2 H3 H4.
    destruct (published_parsed entry) as [[[| x tm] |] |];
      destruct (cfg_username cfg), (cfg_password cfg);
      rewrite ?lookup_insert_ne by done;
      rewrite (Hlookup _ Hk); now apply lookup_insert_ne.
Qed.

Lemma add_enclosure_info_spec enc f m st ee st' :
  add_enclosure_info ∅ enc f m st = (Next ee, st') ->
  item_of_enclosure ee enc /\ same_frame st st'.
Proof.
  intros Hrun.
  split; [| exact (keeps_run _ _ _ _ _ (frame_add_enclosure_info _ _ _ _) Hrun)].
  revert Hrun. unfold add_enclosure_info, item_of_enclosure.
  destruct (href enc) as [h |]; [| discriminate]. cbv zeta.
  destruct (_ && f).
  - rewrite bind_unfold, log_eq. intros [= <- _].
    destruct (length_attr enc), (type_attr enc); simpl;
      rewrite ?lookup_insert_ne by done; rewrite ?lookup_insert_eq;
      rewrite ?lookup_insert_ne by done; rewrite ?lookup_insert_eq; auto.
  - intros [= <- _].
    destruct (length_attr enc), (type_attr enc); simpl;
      rewrite ?lookup_insert_ne by done; rewrite ?lookup_insert_eq;
      rewrite ?lookup_insert_ne by done; rewrite ?lookup_insert_eq; auto.
Qed.

(** The fan-out loop appends one entry per enclosure that has a url, in
    order. *)
Lemma add_enclosures_spec cfg entry t encs :
  not_target cfg "url" -> not_target cfg "size" ->
  forall st u st',
    add_enclosures cfg entry t encs st = (Next u, st') ->
    exists new,
      entries st' = (entries st ++ new)%list /\
      ignored st' = ignored st /\
      Forall2 item_of_enclosure new (List.filter has_href encs).
Proof.
  intros Hurl Hsize.
  induction encs as [| enc rest IH]; intros st u st'; simpl.
  - intros [= _ <-]. exists []. rewrite app_nil_r. auto.
  - unfold has_href at 1. destruct (href enc) as [h |] eqn:Hh.
    + rewrite bind_unfold.
      destruct (add_enclosure_info _ _ _ _ st) as [[ee | r | e] s1] eqn:Hinfo;
        try discriminate.
      destruct (add_enclosure_info_spec _ _ _ _ _ _ Hinfo) as [[Hu Hs] [He1 Hi1]].
      rewrite bind_unfold.
      destruct (add_entry _ _ _ _ s1) as [[[] | r | e] s2] eqn:Hadd; try discriminate.
      destruct (add_entry_spec _ _ _ _ _ _ _ Hadd) as (ea' & He2 & Hi2 & _ & Hkeep).
      intros Hrest. destruct (IH _ _ _ Hrest) as (new & He3 & Hi3 & Hall).
      exists (ea' :: new). split; [| split].
      * rewrite He3, He2, He1, <- app_assoc. reflexivity.
      * congruence.
      * constructor; [| exact Hall]. split.
        -- rewrite (Hkeep "url") by (auto || discriminate). exact Hu.
        -- rewrite (Hkeep "size") by (auto || discriminate). exact Hs.
    + rewrite bind_unfold, log_eq. intros Hrest.
      destruct (IH _ _ _ Hrest) as (new & He3 & Hi3 & Hall).
      exists new. auto.
Qed.

(** C9 (amended).  For an entry with a title, more than one enclosure and
    [group_links] off, that is not the entry of the stored fingerprint:
    the body of the loop appends one FlexGet entry per enclosure that has a
    url, in the order of the enclosures, each with that url and with the
    enclosure's length read as its size (0 when it does not read), and
    nothing else: no entry is made of the rss item itself, and none is
    counted as ignored.  No projected field may be named [url] or [size]. *)
Theorem enclosure_fan_out cfg last entry st entry' st' :
  (1 < List.length (enclosures entry))%nat ->
  cfg_group_links cfg = false ->
  get_truthy (fields entry !! default "title" (cfg_title cfg)) = true ->
  not_target cfg "url" -> not_target cfg "size" ->
  loop_body cfg last entry st = (Next (Continue, entry'), st') ->
  exists new,
    entries st' = (entries st ++ new)%list /\
    ignored st' = ignored st /\
    Forall2 item_of_enclosure new (List.filter has_href (enclosures entry)) /\
    List.length new = List.length (List.filter has_href (enclosures entry)).
Proof.
  intros Hlen Hgroup Htitle Hurl Hsize.
  unfold loop_body.
  destruct (fields entry !! default "title" (cfg_title cfg)) as [raw |];
    [| discriminate].
  simpl in Htitle. rewrite Htitle. rewrite bind_unfold.
  destruct (fingerprint _ st) as [[fp | r | e] s0] eqn:Hfp; try discriminate.
  pose proof (keeps_run _ _ _ _ _ (frame_fingerprint _) Hfp) as [He0 Hi0].
  case_bool_decide; [unfold bind, log_, set_no_entries_ok, ret; discriminate |].
  destruct raw as [t | b n]; [| discriminate].
  cbv zeta. rewrite Hgroup.
  apply Nat.ltb_lt in Hlen. rewrite Hlen. simpl.
  rewrite bind_unfold, log_eq, bind_unfold.
  destruct (add_enclosures _ _ _ _ _) as [[[] | r | e] s1] eqn:Hadd; try discriminate.
  destruct (add_enclosures_spec _ _ _ _ Hurl Hsize _ _ _ Hadd) as (new & He1 & Hi1 & Hall).
  intros [= _ <-]. exists new. simpl in He1, Hi1.
  split; [congruence |]. split; [congruence |]. split; [exact Hall |].
  eapply Forall2_length; eauto.
Qed.

(** The rss entries the fan-out loop appends carry the cleaned title. *)
Lemma add_enclosures_title cfg entry t encs :
  forall st u st',
    add_enclosures cfg entry t encs st = (Next u, st') ->
    exists new,
      entries st' = (entries st ++ new)%list /\
      (not_target cfg "title" ->
         Forall (fun ea : Entry => ea !! "title" = Some (EVal (VStr t))) new).
Proof.
  induction encs as [| enc rest IH]; intros st u st'; simpl.
  - intros [= _ <-]. exists []. rewrite app_nil_r. auto.
  - destruct (href enc) as [h |].
    + rewrite bind_unfold.
      destruct (add_enclosure_info _ _ _ _ st) as [[ee | r | e] s1] eqn:Hinfo;
        try discriminate.
      destruct (add_enclosure_info_spec _ _ _ _ _ _ Hinfo) as [_ [He1 _]].
      rewrite bind_unfold.
      destruct (add_entry _ _ _ _ s1) as [[[] | r | e] s2] eqn:Hadd; try discriminate.
      destruct (add_entry_spec _ _ _ _ _ _ _ Hadd) as (ea' & He2 & _ & Ht & _).
      intros Hrest. destruct (IH _ _ _ Hrest) as (new & He3 & Hall).
      exists (ea' :: new). split.
      * rewrite He3, He2, He1, <- app_assoc. reflexivity.
      * intros Htitle. constructor; auto.
    + rewrite bind_unfold, log_eq. intros Hrest.
      destruct (IH _ _ _ Hrest) as (new & He3 & Hall).
      exists new. auto.
Qed.

(** The link strategy reads the keys and the enclosures of the rss entry,
    not its title attribute. *)
Lemma list_urls_title_attr e v names :
  forall acc, list_urls (set_title_attr e v) names acc = list_urls e names acc.
Proof.
  induction names as [| f rest IH]; intros acc; simpl; [reflexivity |].
  destruct (fields e !! f) as [w |]; [| apply IH].
  destruct (truthy w); apply IH.
Qed.

Lemma resolve_links_title_attr cfg e v :
  resolve_links cfg (set_title_attr e v) = resolve_links cfg e.
Proof.
  unfold resolve_links, group_links. simpl.
  destruct (cfg_link cfg) as [l | names]; [reflexivity |].
  rewrite list_urls_title_attr. reflexivity.
Qed.

(** [fingerprint] reads the state and leaves it as it is. *)
Lemma fingerprint_state e st o st' : fingerprint e st = (o, st') -> st' = st.
Proof.
  unfold fingerprint, py_concat.
  destruct (getattr_entry e "title") as [[t | b n] |];
    [destruct (default _ _) | |]; intros [= _ <-]; reflexivity.
Qed.

(** What one pass of the loop body adds for an rss entry: nothing, and
    one more ignored item, when the configured title field is missing or
    empty; something only when that field is a non-empty text, and then
    every FlexGet entry added carries that text after the clean-up; in the
    single-item branch every entry added has a non-empty url, and nothing
    is added when the link strategy resolves no url.  The title and url
    statements need that no projected field is named [title], respectively
    [url]. *)
Theorem emitted_items_title_and_url cfg last entry st ctl entry' st' :
  loop_body cfg last entry st = (Next (ctl, entry'), st') ->
  exists new,
    entries st' = (entries st ++ new)%list /\
    (get_truthy (fields entry !! default "title" (cfg_title cfg)) = false ->
       new = [] /\ ignored st' = S (ignored st)) /\
    (new <> [] ->
       exists t,
         fields entry !! default "title" (cfg_title cfg) = Some (VStr t) /\
         str_truthy t = true /\
         (not_target cfg "title" ->
            Forall (fun ea : Entry =>
                      ea !! "title" = Some (EVal (VStr (clean_title cfg t)))) new)) /\
    ((1 <? List.length (enclosures entry))%nat && negb (cfg_group_links cfg) = false ->
       (not_target cfg "url" ->
          Forall (fun ea : Entry => entry_truthy ea "url" = true) new) /\
       (forall e st1,
          resolve_links cfg entry st = (Next e, st1) ->
          entry_truthy e "url" = false -> new = [])).
Proof.
  unfold loop_body.
  assert (Hskip :
    (log_ LDebug "skipping entry without title";; incr_ignored;; ret (Continue, entry)) st
      = (Next (ctl, entry'), st') ->
    exists new,
      entries st' = (entries st ++ new)%list /\
      (new = [] /\ ignored st' = S (ignored st))).
  { intros [= _ _ <-]. exists []. simpl. rewrite app_nil_r. auto. }
  destruct (fields entry !! default "title" (cfg_title cfg)) as [raw |] eqn:Hraw.
  2:{ intros Hrun. destruct (Hskip Hrun) as (new & He & Hn & Hi). exists new.
      split; [exact He |]. split; [auto |]. split; [congruence |].
      intros _. subst new. split; [constructor | reflexivity]. }
  destruct (truthy raw) eqn:Htruthy.
  2:{ intros Hrun. destruct (Hskip Hrun) as (new & He & Hn & Hi). exists new.
      split; [exact He |]. split; [auto |]. split; [congruence |].
      intros _. subst new. split; [constructor | reflexivity]. }
  clear Hskip. simpl. rewrite Htruthy. rewrite bind_unfold.
  destruct (fingerprint _ st) as [[fp | r | e] s0] eqn:Hfp; try discriminate.
  apply fingerprint_state in Hfp. subst s0.
  case_bool_decide.
  { unfold bind, log_, set_no_entries_ok, ret. intros [= _ _ <-]. exists []. simpl.
    rewrite app_nil_r. split; [reflexivity |]. split; [discriminate |].
    split; [congruence |]. intros _. split; [constructor | reflexivity]. }
  destruct raw as [t | b n]; [| discriminate].
  cbv zeta. fold (clean_title cfg t).
  destruct ((1 <? List.length (enclosures entry))%nat && negb (cfg_group_links cfg)) eqn:Hfan.
  - (* the fan-out branch *)
    rewrite bind_unfold, log_eq, bind_unfold.
    destruct (add_enclosures _ _ _ _ _) as [[[] | r | e] s1] eqn:Hadd; try discriminate.
    intros [= _ _ <-].
    destruct (add_enclosures_title _ _ _ _ _ _ _ Hadd) as (new & He & Hall).
    exists new. split; [exact He |]. split; [discriminate |]. split.
    + intros _. exists t. auto.
    + discriminate.
  - (* the single-item branch *)
    rewrite resolve_links_title_attr, bind_unfold.
    destruct (resolve_links cfg entry st) as [[e | r | ex] s1] eqn:Hres; try discriminate.
    pose proof (keeps_run _ _ _ _ _ (frame_resolve_links _ _) Hres) as [He1 Hi1].
    destruct (entry_truthy e "url") eqn:Hu; simpl.
    + rewrite bind_unfold.
      destruct (add_entry _ _ _ _ s1) as [[[] | r | ex] s2] eqn:Hadd; try discriminate.
      destruct (add_entry_spec _ _ _ _ _ _ _ Hadd) as (ea' & He2 & _ & Ht & Hkeep).
      intros [= _ _ <-]. exists [ea'].
      split; [congruence |]. split; [discriminate |]. split.
      * intros _. exists t. split; [reflexivity |]. split; [exact Htruthy |].
        intros Htitle. constructor; auto.
      * intros _. split.
        -- intros Hurl. constructor; [| constructor].
           unfold entry_truthy in *.
           rewrite (Hkeep "url") by (auto || discriminate). exact Hu.
        -- intros e0 st1 [= -> _]. congruence.
    + intros [= _ _ <-]. exists []. simpl. rewrite app_nil_r.
      split; [congruence |]. split; [discriminate |]. split; [congruence |].
      intros _. split; [constructor | reflexivity].
Qed.

(** The copy loop raises as soon as one of the fields it reads is present
    in the entry and is not text. *)
Lemma grab_fields_non_text_raises cfg entry f g b n items :
  (f, g) ∈ items ->
  fields entry !! f = Some (VObj b n) ->
  f <> "title" ->
  forall ea st, exists e st', grab_fields cfg entry items ea st = (Raise e, st').
Proof.
  intros Hin Hf Hne.
  assert (Hattr : getattr_entry entry f = Some (VObj b n)).
  { unfold getattr_entry. rewrite bool_decide_eq_false_2 by exact Hne. exact Hf. }
  induction items as [| [f0 g0] rest IH]; intros ea st.
  - apply elem_of_nil in Hin. destruct Hin.
  - apply elem_of_cons in Hin. destruct Hin as [[= <- <-] | Hin]; simpl.
    + rewrite Hf, Hattr, bind_unfold, log_eq.
      destruct (cfg_other_fields cfg); eexists _, _; reflexivity.
    + specialize (IH Hin).
      destruct (fields entry !! f0) as [raw |]; [| apply IH].
      destruct (getattr_entry entry f0) as [[s | b0 n0] |]; [| | apply IH].
      * destruct (str_truthy s); simpl.
        -- destruct raw as [r | b0 n0]; [| eexists _, _; reflexivity].
           destruct (decode_html r); [apply IH |].
           rewrite bind_unfold, log_eq. apply IH.
        -- rewrite bind_unfold, log_eq. apply IH.
      * rewrite bind_unfold, log_eq.
        destruct (cfg_other_fields cfg); eexists _, _; reflexivity.
Qed.

(** Saving the last spot raises when the first entry has neither a title
    attribute nor a title key. *)
Lemma save_last_entry_untitled e0 es st :
  title_attr e0 = None ->
  fields e0 !! "title" = None ->
  save_last_entry (e0 :: es) st =
    (Raise (AttributeError "title"), (log_ LDebug "Saving location in rss feed." st).2).
Proof.
  intros Hattr Hkey. unfold save_last_entry.
  rewrite bind_unfold, log_eq, bind_unfold.
  unfold fingerprint, getattr_entry. simpl. rewrite Hattr, Hkey. reflexivity.
Qed.

End Properties.


(* ===================================================================== *)
(** ** The run on the example feeds *)
(* ===================================================================== *)

(** C1, counterexample.  The server answers 200 with a new etag and a login
    page; the parser reports an XML error and no entry.  The run aborts
    while it classifies the parse, and the new etag is already persisted. *)
Lemma aborted_parse_has_persisted_etag :
  let r := @run (demo_world (Some login_page_response) (Some login_page_feed))
             demo_task (ConfigUrl demo_url) empty_cache in
  r.1 = Raised (PluginError "Received invalid RSS content from task %s (%s)") /\
  simple_persistence r.2 =
    {| cs_etag := Some (VStr "v2"); cs_modified := None; cs_last_entry := None |} /\
  simple_persistence r.2 <> empty_cache /\
  received r.2 = [("demo.html", "<html>login</html>")].
Proof. vm_compute. repeat split; discriminate. Qed.

(** C2.  Two runs on the same document, the second from the state the first
    one persisted.  The first run persists the fingerprint of the cleaned
    title, the second compares it with the fingerprint of the title as
    parsed: they differ, nothing stops the scan and both items come out
    again. *)
Theorem second_run_repeats_items :
  let w := demo_world (Some (ok_response "<rss/>")) (Some zwsp_feed) in
  let run1 := @run w demo_task (ConfigUrl demo_url) empty_cache in
  let run2 := @run w demo_task (ConfigUrl demo_url) (simple_persistence run1.2) in
  run1.1 = Returned (Some [demo_item "AB" "g1" "http://x/1";
                           demo_item "old" "g0" "http://x/0"]) /\
  cs_last_entry (simple_persistence run1.2) = Some (VStr "ABg1") /\
  spec_fingerprint demo_cfg (plain_entry ("A" ++ zwsp ++ "B") "g1" "http://x/1")
    = Some ("A" ++ zwsp ++ "Bg1") /\
  run2.1 = run1.1 /\
  no_entries_ok run2.2 = false.
Proof. vm_compute. repeat split; reflexivity. Qed.

(** C3.  The loop skips an entry without title and counts it among the
    entries "without required information", but it tests the title as
    parsed and cleans it afterwards.  A title that is one zero width space,
    and under the [ascii] option a title without any ASCII character, pass
    the test and are cleaned to the empty text: the item comes out with an
    empty title and nothing is counted as skipped. *)
Theorem zwsp_title_emits_empty_title :
  let w t := demo_world (Some (ok_response "<rss/>"))
               (Some (clean_feed [plain_entry t "g" "http://x/1"])) in
  let r1 := @run (w zwsp) demo_task (ConfigUrl demo_url) empty_cache in
  let r2 := @run (w e_acute) demo_task (ConfigDict ascii_raw) empty_cache in
  r1.1 = Returned (Some [demo_item "" "g" "http://x/1"]) /\
  r2.1 = Returned (Some [demo_item "" "g" "http://x/1"]) /\
  demo_item "" "g" "http://x/1" !! "title" = Some (EVal (VStr "")) /\
  ignored r1.2 = 0%nat /\
  ignored r2.2 = 0%nat.
Proof. vm_compute. repeat split; reflexivity. Qed.

(** C5, counterexample.  The first entry of the feed has an empty title
    and the guid [g].  A first run stores its title followed by its guid,
    [g]; in the scan of the next run that entry has the stored fingerprint,
    yet it is skipped for its title and does not end the loop: the entry
    after it gives its item again. *)
Lemma empty_title_match_does_not_halt :
  let e0 := plain_entry "" "g" "http://x/0" in
  let w := demo_world (Some (ok_response "<rss/>")) (Some empty_title_feed) in
  let run1 := @run w demo_task (ConfigUrl demo_url) empty_cache in
  let run2 := @run w demo_task (ConfigUrl demo_url) (simple_persistence run1.2) in
  let scan := @rss_loop w demo_cfg (Some (VStr "g")) (feed_entries empty_title_feed)
                (initial_state empty_cache) in
  cs_last_entry (simple_persistence run1.2) = Some (VStr "g") /\
  (fingerprint e0 (initial_state empty_cache)).1 = Next "g" /\
  scan.1 = Next [e0; set_title_attr (plain_entry "B" "g2" "http://x/2") (VStr "B")] /\
  entries scan.2 = [demo_item "B" "g2" "http://x/2"] /\
  no_entries_ok scan.2 = false /\
  run2.1 = Returned (Some [demo_item "B" "g2" "http://x/2"]).
Proof. vm_compute. repeat split; reflexivity. Qed.

(** C4.  A bozo exception of an unknown class leaves [ignore] false also
    when the feed has entries; on such a feed the run logs the error and
    returns [None], and the sound entry of the feed is not turned into an
    item. *)
Theorem unclassified_bozo_with_entries_returns_none :
  (forall task cfg data b c e es st,
      check_bozo task cfg data
        {| bozo := b; bozo_exception_of := Some (OtherBozo c); feed_entries := e :: es |} st
      = (Next false,
         (log_ (if negb (get_flag (cfg_silent cfg) false) then LInfo else LDebug)
            "Invalid RSS received. However feedparser still produced entries. Ignoring the error ..."
            st).2)) /\
  let r := @run (demo_world (Some (ok_response "<rss/>")) (Some odd_bozo_feed))
             demo_task (ConfigUrl demo_url) empty_cache in
  r.1 = Returned None /\
  entries r.2 = [] /\
  log r.2 =
    [(LDebug, "Requesting task `%s` url `%s`");
     (LInfo, "Invalid RSS received. However feedparser still produced entries. Ignoring the error ...");
     (LError, "%s");
     (LError, "Bozo exception %s on task %s")].
Proof.
  split.
  - intros. reflexivity.
  - vm_compute. repeat split; reflexivity.
Qed.

(** C6.  The first entry of the feed has no title: it is skipped by the
    loop, and saving the last spot reads its [title] attribute, which
    raises (as it does for every first entry without title attribute and
    title key).  No fingerprint is persisted. *)
Theorem untitled_first_entry_raises :
  (forall e0 es st,
      title_attr e0 = None -> fields e0 !! "title" = None ->
      save_last_entry (e0 :: es) st =
        (Raise (AttributeError "title"),
         (log_ LDebug "Saving location in rss feed." st).2)) /\
  let r := @run (demo_world (Some (ok_response "<rss/>")) (Some untitled_first_feed))
             demo_task (ConfigUrl demo_url) empty_cache in
  r.1 = Raised (AttributeError "title") /\
  cs_last_entry (simple_persistence r.2) = None /\
  ignored r.2 = 1%nat.
Proof.
  split.
  - apply save_last_entry_untitled.
  - vm_compute. repeat split; reflexivity.
Qed.

(** C7.  The configuration asks for the field [tags], which holds a list in
    the first entry.  The error is logged, then the removal from
    [other_fields] raises: the run ends there, and the second, sound entry
    is never looked at.  The copy loop raises in this way for every entry
    that holds a non-text value under a field it reads. *)
Theorem non_text_field_aborts_run :
  (forall (W : Collaborators) cfg entry f g b n items ea st,
      (f, g) ∈ items -> fields entry !! f = Some (VObj b n) -> f <> "title" ->
      exists e st', @grab_fields W cfg entry items ea st = (Raise e, st')) /\
  let r := @run (demo_world (Some (ok_response "<rss/>"))
                   (Some (clean_feed [tagged_entry; plain_entry "B" "g2" "http://x/2"])))
             demo_task (ConfigDict tags_raw) empty_cache in
  r.1 = Raised ValueError /\
  entries r.2 = [] /\
  log r.2 =
    [(LDebug, "Requesting task `%s` url `%s`");
     (LDebug, "encoding %s");
     (LError, "Cannot grab non text field `%s` from rss.")].
Proof.
  split.
  - intros. eapply grab_fields_non_text_raises; eauto.
  - vm_compute. repeat split; reflexivity.
Qed.

(** C8.  With [group_links] on, an entry with two enclosures and neither
    link nor guid has no url when [e['url']] is read: the link resolution
    raises [KeyError], whatever the state, and so does the run. *)
Theorem group_links_without_url_raises :
  (forall (W : Collaborators) st,
      @resolve_links W group_links_cfg linkless_entry st = (Raise (KeyError "url"), st)) /\
  let r := @run (demo_world (Some (ok_response "<rss/>"))
                   (Some (clean_feed [linkless_entry])))
             demo_task (ConfigDict group_links_raw) empty_cache in
  r.1 = Raised (KeyError "url") /\
  ignored r.2 = 0%nat.
Proof.
  split.
  - intros. reflexivity.
  - vm_compute. split; reflexivity.
Qed.

(** C9, counterexample.  Three enclosures, the second without url, and
    [group_links] off: two items come out, not three. *)
Lemma fan_out_skips_enclosure_without_url :
  let r := @run (demo_world (Some (ok_response "<rss/>"))
                   (Some (clean_feed [fanout_entry])))
             demo_task (ConfigUrl demo_url) empty_cache in
  List.length (enclosures fanout_entry) = 3%nat /\
  r.1 = Returned (Some
    [ <["filename" := EVal (VStr "a.torrent")]>
        (<["size" := EInt 0]>
          (<["title" := EVal (VStr "A")]> (<["url" := EVal (VStr "http://x/a.torrent")]> ∅)));
      <["type" := EVal (VStr "application/x-bittorrent")]>
        (<["filename" := EVal (VStr "b.torrent")]>
          (<["size" := EInt 300]>
            (<["title" := EVal (VStr "A")]> (<["url" := EVal (VStr "http://x/b.torrent")]> ∅)))) ]).
Proof. vm_compute. split; reflexivity. Qed.

(** *** The theorems with hypotheses, at concrete inputs *)

(** From the list of the fields the copy loop reads. *)
Lemma not_target_of_list cfg k :
  Forall (fun fg : string * string => fg.2 <> k) (map_to_list (grab_fields_of cfg)) ->
  not_target cfg k.
Proof.
  intros Hall f g Hfg. apply elem_of_map_to_list in Hfg.
  rewrite Forall_forall in Hall. exact (Hall (f, g) Hfg).
Qed.

(** C10 at a 200 answer with an empty body. *)
Lemma empty_body_returns_none_witness :
  let st :=
    {| simple_persistence := empty_cache; no_entries_ok := false;
       log := [(LDebug, "Requesting task `%s` url `%s`")];
       received := []; entries := []; ignored := 0%nat |} in
  @run (demo_world (Some (ok_response "")) None) demo_task (ConfigUrl demo_url) empty_cache
    = (Returned None, (log_ LError "No data recieved for rss feed." st).2) /\
  no_entries_ok st = false /\
  entries st = [].
Proof.
  intros st.
  apply (@empty_body_returns_none (demo_world (Some (ok_response "")) None)
           demo_task (ConfigUrl demo_url) empty_cache demo_cfg
           {| if_none_match := None; if_modified_since := None |} st st);
    reflexivity.
Defined.

(** C5 at five entries of which the third has the stored fingerprint:
    the items of the first two come out, and only they. *)
Lemma dedup_horizon_witness :
  let W := demo_world None None in
  let st := initial_state empty_cache in
  let e2 := plain_entry "e2" "g2" "http://x/2" in
  @rss_loop W demo_cfg (Some (VStr ("e2" ++ "g2")))
     (take 2 five_entries ++ e2 :: drop 3 five_entries) st =
    (scanned <- @rss_loop W demo_cfg (Some (VStr ("e2" ++ "g2"))) (take 2 five_entries) ;;
     log_ LVerbose "Not processing entries from last run." ;;
     set_no_entries_ok ;;
     ret (scanned ++ set_title_attr e2 (VStr "e2") :: drop 3 five_entries)%list) st /\
  (forall p st0 p' st', p ∈ take 2 five_entries ->
     @loop_body W demo_cfg (Some (VStr ("e2" ++ "g2"))) p st0 <> (Next (Break, p'), st')) /\
  (forall fp p st0 p' st',
     get_truthy (fields p !! default "title" (cfg_title demo_cfg)) = false ->
     @loop_body W demo_cfg (Some (VStr fp)) p st0 <> (Next (Break, p'), st')) /\
  entries (@rss_loop W demo_cfg (Some (VStr "e2g2")) five_entries st).2 =
    [demo_item "e0" "g0" "http://x/0"; demo_item "e1" "g1" "http://x/1"].
Proof.
  intros W st e2.
  cut (forall A B C D : Prop, A /\ B /\ C -> D -> A /\ B /\ C /\ D);
    [| intros A B C D (? & ? & ?) ?; auto].
  intros Hcut. apply Hcut; [| vm_compute; reflexivity]. clear Hcut.
  apply (@dedup_horizon W demo_cfg (take 2 five_entries) e2 (drop 3 five_entries)
           "e2" "g2" st).
  - intros p Hp. apply list_elem_of_In in Hp. simpl in Hp.
    destruct Hp as [<- | [<- | []]]; vm_compute; discriminate.
  - reflexivity.
  - reflexivity.
  - reflexivity.
Defined.

(** C9 at the entry with three enclosures of which two have a url. *)
Lemma enclosure_fan_out_witness :
  let W := demo_world None None in
  let st := initial_state empty_cache in
  let r := @loop_body W demo_cfg None fanout_entry st in
  exists new,
    entries r.2 = (entries st ++ new)%list /\
    ignored r.2 = ignored st /\
    Forall2 (@item_of_enclosure W) new (List.filter has_href (enclosures fanout_entry)) /\
    List.length new = List.length (List.filter has_href (enclosures fanout_entry)).
Proof.
  intros W st r.
  apply (@enclosure_fan_out W demo_cfg None fanout_entry st
           (set_title_attr fanout_entry (VStr "A")) r.2).
  - vm_compute. lia.
  - reflexivity.
  - reflexivity.
  - apply not_target_of_list. vm_compute. repeat (constructor; [discriminate |]). constructor.
  - apply not_target_of_list. vm_compute. repeat (constructor; [discriminate |]). constructor.
  - vm_compute. reflexivity.
Defined.

(** The pass of the loop body over a plain entry with title, guid and
    link. *)
Lemma emitted_items_title_and_url_witness :
  let W := demo_world None None in
  let st := initial_state empty_cache in
  let entry := plain_entry "A" "g" "http://x/1" in
  let r := @loop_body W demo_cfg None entry st in
  exists new,
    entries r.2 = (entries st ++ new)%list /\
    (get_truthy (fields entry !! default "title" (cfg_title demo_cfg)) = false ->
       new = [] /\ ignored r.2 = S (ignored st)) /\
    (new <> [] ->
       exists t,
         fields entry !! default "title" (cfg_title demo_cfg) = Some (VStr t) /\
         str_truthy t = true /\
         (not_target demo_cfg "title" ->
            Forall (fun ea : Entry =>
                      ea !! "title" = Some (EVal (VStr (clean_title demo_cfg t)))) new)) /\
    ((1 <? List.length (enclosures entry))%nat && negb (cfg_group_links demo_cfg) = false ->
       (not_target demo_cfg "url" ->
          Forall (fun ea : Entry => entry_truthy ea "url" = true) new) /\
       (forall e st1,
          @resolve_links W demo_cfg entry st = (Next e, st1) ->
          entry_truthy e "url" = false -> new = [])).
Proof.
  intros W st entry r.
  apply (@emitted_items_title_and_url W demo_cfg None entry st Continue
           (set_title_attr entry (VStr "A")) r.2).
  vm_compute. reflexivity.
Defined.

(* ===================================================================== *)
(** ** Further properties: the text helpers *)
(* ===================================================================== *)

Lemma encode_ascii_ignore_bytes s :
  Forall (fun c => (nat_of_ascii c < 128)%nat) (bytes_of (encode_ascii_ignore s)).
Proof.
  induction s as [| c s IH]; simpl; [constructor |].
  destruct (Nat.ltb_spec (nat_of_ascii c) 128); simpl; [constructor |]; auto.
Qed.

Lemma encode_ascii_ignore_fixed s :
  Forall (fun c => (nat_of_ascii c < 128)%nat) (bytes_of s) ->
  encode_ascii_ignore s = s.
Proof.
  induction s as [| c s IH]; simpl; [reflexivity |].
  intros Hall. inversion Hall as [| ? ? Hc Hs]; subst.
  apply Nat.ltb_lt in Hc. rewrite Hc. f_equal. auto.
Qed.

Lemma remove_zwsp_unfold a b c rest :
  remove_zwsp (String a (String b (String c rest))) =
  if (Ascii.eqb a (ascii_of_nat 226) && Ascii.eqb b (ascii_of_nat 128)
      && Ascii.eqb c (ascii_of_nat 139))%bool
  then remove_zwsp rest
  else String a (remove_zwsp (String b (String c rest))).
Proof. reflexivity. Qed.

(** A text without the byte 226 holds no zero width space, and removing
    them leaves it as it is. *)
Lemma remove_zwsp_fixed s :
  Forall (fun c => nat_of_ascii c <> 226%nat) (bytes_of s) -> remove_zwsp s = s.
Proof.
  assert (Hgen : forall n s, (String.length s <= n)%nat ->
            Forall (fun c => nat_of_ascii c <> 226%nat) (bytes_of s) ->
            remove_zwsp s = s).
  { clear s. induction n as [| n IH]; intros s Hlen Hall.
    - destruct s; [reflexivity | simpl in Hlen; lia].
    - destruct s as [| a [| b [| c rest]]]; try reflexivity.
      simpl bytes_of in Hall. inversion Hall as [| ? ? Ha Htl]; subst.
      rewrite remove_zwsp_unfold.
      destruct (Ascii.eqb_spec a (ascii_of_nat 226)) as [-> | Hne].
      + exfalso. apply Ha. reflexivity.
      + cbn [andb]. f_equal. apply IH; [simpl in *; lia | exact Htl]. }
  intros Hall. apply (Hgen (String.length s)); auto.
Qed.

Lemma contains_zwsp_false s :
  Forall (fun c => nat_of_ascii c <> 226%nat) (bytes_of s) -> contains zwsp s = false.
Proof.
  induction s as [| c s IH]; intros Hall; [reflexivity |].
  simpl bytes_of in Hall. inversion Hall as [| ? ? Hc Hs]; subst.
  cbn [contains]. rewrite (IH Hs), orb_false_r.
  unfold zwsp. cbn [startswith].
  destruct (Ascii.eqb_spec (ascii_of_nat 226) c) as [<- | Hne]; [| reflexivity].
  exfalso. apply Hc. reflexivity.
Qed.

(** X1.  With the [ascii] option the cleaned title holds ASCII bytes only
    and no zero width space, and cleaning it again changes nothing: on the
    ASCII text the removal of zero width spaces is the identity. *)
Theorem ascii_title_is_clean cfg t :
  cfg_ascii cfg = Some true ->
  Forall (fun c => (nat_of_ascii c < 128)%nat) (bytes_of (clean_title cfg t)) /\
  clean_title cfg t = encode_ascii_ignore t /\
  contains zwsp (clean_title cfg t) = false /\
  clean_title cfg (clean_title cfg t) = clean_title cfg t.
Proof.
  intros Hascii. unfold clean_title. rewrite Hascii. simpl.
  assert (Hlow : Forall (fun c => nat_of_ascii c <> 226%nat)
                   (bytes_of (encode_ascii_ignore t))).
  { eapply Forall_impl; [apply encode_ascii_ignore_bytes |]. simpl. intros c Hc. lia. }
  rewrite (remove_zwsp_fixed _ Hlow).
  split; [apply encode_ascii_ignore_bytes |]. split; [reflexivity |].
  split; [apply contains_zwsp_false, Hlow |].
  rewrite (encode_ascii_ignore_fixed _ (encode_ascii_ignore_bytes t)).
  apply remove_zwsp_fixed, Hlow.
Qed.

(* ===================================================================== *)
(** ** Further properties: the order of the entries *)
(* ===================================================================== *)

Lemma tuple_lt_asym a : forall b, tuple_lt a b = true -> tuple_lt b a = false.
Proof.
  induction a as [| x a IH]; intros [| y b]; simpl; try congruence.
  destruct (Z.ltb_spec x y), (Z.ltb_spec y x); try lia; try congruence.
  apply IH.
Qed.

Lemma tuple_ge_trans a : forall b c,
  tuple_lt a b = false -> tuple_lt b c = false -> tuple_lt a c = false.
Proof.
  induction a as [| x a IH]; intros [| y b] [| z c]; simpl; try congruence.
  destruct (Z.ltb_spec x y), (Z.ltb_spec y x), (Z.ltb_spec y z), (Z.ltb_spec z y),
    (Z.ltb_spec x z), (Z.ltb_spec z x); try lia; try congruence.
  apply IH.
Qed.

Lemma time_lt_asym a b : time_lt a b = true -> time_lt b a = false.
Proof. destruct a, b; simpl; try congruence. apply tuple_lt_asym. Qed.

Lemma time_ge_trans a b c :
  time_lt a b = false -> time_lt b c = false -> time_lt a c = false.
Proof. destruct a, b, c; simpl; try congruence. apply tuple_ge_trans. Qed.

Lemma time_lt_irrefl a : time_lt a a = false.
Proof.
  destruct (time_lt a a) eqn:E; [| reflexivity].
  pose proof (time_lt_asym _ _ E). congruence.
Qed.

Lemma insert_desc_perm k e l : Permutation (insert_desc k e l) ((k, e) :: l).
Proof.
  induction l as [| [k' e'] l IH]; simpl; [reflexivity |].
  destruct (time_lt k k'); [| reflexivity].
  rewrite IH. apply perm_swap.
Qed.

Lemma insert_desc_sorted k e l :
  keys_descending l -> keys_descending (insert_desc k e l).
Proof.
  unfold keys_descending.
  induction l as [| [k' e'] l IH]; simpl; intros Hs.
  - repeat constructor.
  - apply StronglySorted_inv in Hs as [Hs Hall].
    destruct (time_lt k k') eqn:Hlt.
    + constructor; [apply IH, Hs |].
      rewrite insert_desc_perm. constructor; [| exact Hall].
      simpl. apply time_lt_asym, Hlt.
    + constructor; [constructor; assumption |].
      constructor; [exact Hlt |].
      eapply Forall_impl; [exact Hall |]. simpl. intros x Hx.
      eapply time_ge_trans; eauto.
Qed.

Lemma sort_keys_spec l keyed :
  sort_keys l = Some keyed ->
  map snd keyed = l /\ Forall (fun ke => entry_key ke.2 = ke.1) keyed.
Proof.
  revert keyed. induction l as [| e l IH]; simpl; intros keyed.
  - intros [= <-]. split; constructor.
  - destruct (published_parsed e) as [k |] eqn:Hk; [| discriminate].
    destruct (sort_keys l) as [r |]; [| discriminate].
    intros [= <-]. destruct (IH r eq_refl) as [Hmap Hall].
    split; [simpl; congruence |].
    constructor; [| exact Hall]. unfold entry_key. simpl. rewrite Hk. reflexivity.
Qed.

Lemma sort_keys_none l :
  sort_keys l = None -> exists x, x ∈ l /\ published_parsed x = None.
Proof.
  induction l as [| e l IH]; simpl; [discriminate |].
  destruct (published_parsed e) as [k |] eqn:Hk.
  - destruct (sort_keys l); [discriminate |].
    intros _. destruct (IH eq_refl) as (x & Hx & Hn). exists x. split; [now right | exact Hn].
  - intros _. exists e. split; [now left | exact Hk].
Qed.

Lemma sort_desc_spec keyed :
  Forall (fun ke => entry_key ke.2 = ke.1) keyed ->
  Permutation (map snd keyed) (sort_desc keyed) /\
  StronglySorted not_older (sort_desc keyed).
Proof.
  intros Hkeys. unfold sort_desc.
  set (ins := fun ke acc => insert_desc ke.1 ke.2 acc).
  assert (Hperm : Permutation keyed (foldr ins [] keyed)).
  { clear Hkeys. induction keyed as [| [k e] l IH]; simpl; [reflexivity |].
    unfold ins at 1. simpl. rewrite insert_desc_perm. now constructor. }
  assert (Hsorted : keys_descending (foldr ins [] keyed)).
  { clear. induction keyed as [| [k e] l IH]; simpl; [constructor |].
    apply insert_desc_sorted, IH. }
  split; [now apply Permutation_map |].
  assert (Hkeys' : Forall (fun ke => entry_key ke.2 = ke.1) (foldr ins [] keyed)).
  { rewrite <- Hperm. exact Hkeys. }
  revert Hsorted Hkeys'. generalize (foldr ins [] keyed). clear.
  induction l as [| [k e] l IH]; simpl; intros Hs Hk; [constructor |].
  apply StronglySorted_inv in Hs as [Hs Hall].
  apply Forall_cons in Hk as [Hke Hk].
  constructor; [apply IH; assumption |].
  rewrite Forall_map.
  rewrite Forall_forall in Hall, Hk. apply Forall_forall. intros [k' e'] Hin.
  pose proof (Hk _ Hin) as Hk'. pose proof (Hall _ Hin) as Hall'.
  unfold not_older, compose. simpl in *. rewrite Hke, Hk'. exact Hall'.
Qed.

(** X2.  When the descending-order test goes on, it keeps every entry: the
    result is a permutation of the parsed entries, either the list as it
    was or the list in descending order of [published_parsed]; the state is
    untouched.  When it raises, the exception is the [KeyError] of an entry
    that has no [published_parsed] key. *)
Theorem sort_entries_keeps_entries es st :
  match sort_entries es st with
  | (Next es', st') =>
      st' = st /\ Permutation es es' /\
      (es' = es \/ StronglySorted not_older es')
  | (Raise e, st') =>
      st' = st /\ e = KeyError "published_parsed" /\
      exists x, x ∈ es /\ published_parsed x = None
  | (Return _, _) => False
  end.
Proof.
  unfold sort_entries.
  destruct es as [| e0 rest]; [simpl; auto |].
  destruct (published_parsed e0) as [[[| x t] |] |] eqn:H0; try solve [simpl; auto].
  destruct (published_parsed (List.last (e0 :: rest) e0)) as [tl |] eqn:Hlast.
  - destruct (time_lt (Some (x :: t)) tl); [| simpl; auto].
    destruct (sort_keys (e0 :: rest)) as [keyed |] eqn:Hkeys.
    + destruct (sort_keys_spec _ _ Hkeys) as [Hmap Hall].
      destruct (sort_desc_spec _ Hall) as [Hperm Hsorted].
      simpl. rewrite Hmap in Hperm. auto.
    + simpl. destruct (sort_keys_none _ Hkeys) as (y & Hy & Hn). eauto.
  - simpl. split; [reflexivity |]. split; [reflexivity |].
    exists (List.last (e0 :: rest) e0). split; [| exact Hlast].
    clear. generalize e0 at 1 3. induction rest as [| a rest IH]; intros d.
    + now left.
    + right. destruct rest as [| b rest]; [now left |]. apply (IH a).
Qed.

(* ===================================================================== *)
(** ** Further properties: configuration, fetch and classification *)
(* ===================================================================== *)

Section Coverage.

Context `{Collaborators}.

Lemma build_other_fields_spec l :
  match build_other_fields l with
  | Some r => List.length r = List.length l /\ existsb is_empty_dict l = false
  | None => existsb is_empty_dict l = true
  end.
Proof.
  induction l as [| item l IH]; simpl; [auto |].
  destruct item as [s | [| [k v] items]]; simpl.
  - destruct (build_other_fields l); [| exact IH].
    destruct IH as [Hlen Hex]. simpl. auto.
  - reflexivity.
  - destruct (build_other_fields l); [| exact IH].
    destruct IH as [Hlen Hex]. simpl. auto.
Qed.

(** X3.  [build_config] raises exactly when [other_fields] holds a dict
    without key, and then with [IndexError]; otherwise it goes on, with the
    url as written, one field mapping per item of [other_fields], [link]
    set to [auto] unless configured, and [group_links] and [all_entries]
    off unless configured.  It never touches the state. *)
Theorem build_config_outcome c st :
  match build_config c st with
  | (Next cfg, st') =>
      st' = st /\
      existsb is_empty_dict (raw_other_items c) = false /\
      List.length (default [] (cfg_other_fields cfg)) = List.length (raw_other_items c) /\
      cfg_url cfg = (match c with ConfigUrl u => u | ConfigDict rc => raw_url rc end) /\
      cfg_link cfg =
        default (LinkText "auto")
          (match c with ConfigUrl _ => None | ConfigDict rc => raw_link rc end) /\
      cfg_group_links cfg =
        default false
          (match c with ConfigUrl _ => None | ConfigDict rc => raw_group_links rc end) /\
      cfg_all_entries cfg =
        default false
          (match c with ConfigUrl _ => None | ConfigDict rc => raw_all_entries rc end)
  | (Raise e, st') =>
      st' = st /\ e = IndexError /\ existsb is_empty_dict (raw_other_items c) = true
  | (Return _, _) => False
  end.
Proof.
  unfold build_config, raw_other_items.
  destruct c as [u | rc]; [simpl; repeat split; reflexivity |].
  rewrite bind_unfold.
  destruct (raw_other_fields rc) as [[| item l] |] eqn:Hraw;
    [simpl; repeat split; reflexivity | | simpl; repeat split; reflexivity].
  pose proof (build_other_fields_spec (item :: l)) as Hspec.
  destruct (build_other_fields (item :: l)) as [r |].
  - destruct Hspec as [Hlen Hex]. simpl. repeat split; auto.
  - simpl. repeat split; auto.
Qed.

Lemma conditional_headers_effect b st :
  exists h st',
    conditional_headers b st = (Next h, st') /\
    simple_persistence st' = simple_persistence st /\
    entries st' = entries st /\
    no_entries_ok st' = no_entries_ok st /\
    received st' = received st /\
    (b = true -> h = {| if_none_match := None; if_modified_since := None |} /\ st' = st) /\
    (b = false ->
       if_none_match h =
         (match cs_etag (simple_persistence st) with
          | Some v => if truthy v then Some v else None
          | None => None
          end) /\
       if_modified_since h =
         (match cs_modified (simple_persistence st) with
          | Some (VStr s) => if str_truthy s then Some (VStr s) else None
          | _ => None
          end)).
Proof.
  unfold conditional_headers. destruct b.
  - eexists _, _. repeat split; try reflexivity; discriminate.
  - unfold bind, get_persistence. simpl.
    destruct (cs_etag _) as [v |]; [destruct (truthy v) |];
      (destruct (cs_modified _) as [[s | b' n] |];
       [destruct (str_truthy s) | destruct b' |]); simpl;
      eexists _, _; repeat split; try reflexivity; discriminate.
Qed.

(** X4.  Building the request headers never fails and writes nothing but
    log lines.  When caching is bypassed no conditional header is built;
    otherwise [If-None-Match] is the stored etag when it is truthy, and
    [If-Modified-Since] is the stored date only when that is a non-empty
    text: a stored value of another type is never sent. *)
Theorem conditional_headers_outcome b st :
  exists h st',
    conditional_headers b st = (Next h, st') /\
    simple_persistence st' = simple_persistence st /\
    entries st' = entries st /\
    no_entries_ok st' = no_entries_ok st /\
    (b = true -> h = {| if_none_match := None; if_modified_since := None |} /\ st' = st) /\
    (b = false ->
       if_none_match h =
         (match cs_etag (simple_persistence st) with
          | Some v => if truthy v then Some v else None
          | None => None
          end) /\
       if_modified_since h =
         (match cs_modified (simple_persistence st) with
          | Some (VStr s) => if str_truthy s then Some (VStr s) else None
          | _ => None
          end)).
Proof.
  destruct (conditional_headers_effect b st) as (h & st' & Hrun & Hp & He & Hf & _ & Hb).
  exists h, st'. auto.
Qed.

Lemma save_validators_spec cfg r st :
  exists st',
    save_validators cfg r st = (Next tt, st') /\
    cs_etag (simple_persistence st') =
      saved_slot cfg (resp_etag r) (cs_etag (simple_persistence st)) /\
    cs_modified (simple_persistence st') =
      saved_slot cfg (resp_last_modified r) (cs_modified (simple_persistence st)) /\
    cs_last_entry (simple_persistence st') = cs_last_entry (simple_persistence st) /\
    entries st' = entries st /\
    no_entries_ok st' = no_entries_ok st.
Proof.
  unfold save_validators, saved_slot, bind.
  destruct (cfg_all_entries cfg); simpl;
    destruct (resp_etag r) as [t |]; try destruct (str_truthy t);
    destruct (resp_last_modified r) as [m |]; try destruct (str_truthy m);
    simpl; eexists; repeat split; reflexivity.
Qed.

(** X5.  The fetch goes on to the parse only with the body of a 200 answer
    or with the content of a local file.  After a 200 answer the stored
    etag and last-modified are the headers of the answer where these are
    non-empty and caching is in use, and the stored values otherwise: a
    missing or empty header never erases a stored value.  Nothing else of
    the persisted state, and neither the entries nor the flag, is touched. *)
Theorem get_content_goes_on_only_with_200 cfg h st data st' :
  get_content cfg h st = (Next data, st') ->
  cs_last_entry (simple_persistence st') = cs_last_entry (simple_persistence st) /\
  entries st' = entries st /\
  no_entries_ok st' = no_entries_ok st /\
  ((is_remote (cfg_url cfg) = true /\
    exists r,
      requests_get (cfg_url cfg) h
        (match cfg_username cfg, cfg_password cfg with
         | Some u, Some p => Some (u, p)
         | _, _ => None
         end) = Some r /\
      status_code r = 200 /\
      data = content r /\
      cs_etag (simple_persistence st') =
        saved_slot cfg (resp_etag r) (cs_etag (simple_persistence st)) /\
      cs_modified (simple_persistence st') =
        saved_slot cfg (resp_last_modified r) (cs_modified (simple_persistence st)))
   \/
   (is_remote (cfg_url cfg) = false /\
    read_file (cfg_url cfg) = Some data /\ st' = st)).
Proof.
  unfold get_content.
  destruct (is_remote _).
  - destruct (requests_get _ _ _) as [r |] eqn:Hget; [| discriminate].
    destruct (Z.eqb_spec (status_code r) 304); [discriminate |].
    destruct (Z.eqb_spec (status_code r) 401);
      [destruct (resp_www_authenticate r); discriminate |].
    destruct (Z.eqb_spec (status_code r) 404); [discriminate |].
    destruct (Z.eqb_spec (status_code r) 500); [discriminate |].
    destruct (Z.eqb_spec (status_code r) 200) as [H200 |]; simpl; [| discriminate].
    rewrite bind_unfold.
    destruct (save_validators_spec cfg r st) as (st1 & -> & He & Hm & Hl & Hen & Hf).
    intros [= <- <-].
    split; [exact Hl |]. split; [exact Hen |]. split; [exact Hf |].
    left. split; [reflexivity |]. exists r. auto.
  - destruct (read_file _) as [d |]; [| discriminate].
    intros [= <- <-]. repeat split; try reflexivity. right. auto.
Qed.

(** X6.  A fetch that does not go on has written nothing but the log line
    of a cache hit.  When it raises, the state is exactly what it was: no
    HTTP failure, failed request or unreadable file leaves a trace in the
    persisted state.  When it returns early, the answer was a 304: the
    result is the empty list, the "no entries is ok" flag is set and the
    persisted state is what it was. *)
Theorem get_content_stops_clean cfg h st :
  match get_content cfg h st with
  | (Next _, _) => True
  | (Raise e, st') => st' = st
  | (Return res, st') =>
      res = Some [] /\
      no_entries_ok st' = true /\
      simple_persistence st' = simple_persistence st /\
      entries st' = entries st /\
      exists r,
        requests_get (cfg_url cfg) h
          (match cfg_username cfg, cfg_password cfg with
           | Some u, Some p => Some (u, p)
           | _, _ => None
           end) = Some r /\
        status_code r = 304
  end.
Proof.
  unfold get_content.
  destruct (is_remote _).
  - destruct (requests_get _ _ _) as [r |] eqn:Hget; [| reflexivity].
    destruct (Z.eqb_spec (status_code r) 304) as [H304 |].
    { simpl. repeat split; try reflexivity. exists r. auto. }
    destruct (Z.eqb_spec (status_code r) 401);
      [destruct (resp_www_authenticate r); reflexivity |].
    destruct (Z.eqb_spec (status_code r) 404); [reflexivity |].
    destruct (Z.eqb_spec (status_code r) 500); [reflexivity |].
    destruct (Z.eqb_spec (status_code r) 200) as [H200 |]; simpl; [| reflexivity].
    rewrite bind_unfold.
    destruct (save_validators_spec cfg r st) as (st1 & -> & _). exact I.
  - destruct (read_file _); simpl; auto.
Qed.

(** X7.  Every status other than 200 and 304 makes the fetch raise. *)
Theorem http_error_status_raises cfg h st r :
  is_remote (cfg_url cfg) = true ->
  requests_get (cfg_url cfg) h
    (match cfg_username cfg, cfg_password cfg with
     | Some u, Some p => Some (u, p)
     | _, _ => None
     end) = Some r ->
  status_code r <> 200 -> status_code r <> 304 ->
  exists e, get_content cfg h st = (Raise e, st).
Proof.
  intros Hremote Hget H200 H304. unfold get_content. rewrite Hremote, Hget.
  destruct (Z.eqb_spec (status_code r) 304); [contradiction |].
  destruct (Z.eqb_spec (status_code r) 401);
    [destruct (resp_www_authenticate r); eexists; reflexivity |].
  destruct (Z.eqb_spec (status_code r) 404); [eexists; reflexivity |].
  destruct (Z.eqb_spec (status_code r) 500); [eexists; reflexivity |].
  destruct (Z.eqb_spec (status_code r) 200); [contradiction |].
  simpl. eexists. reflexivity.
Qed.

(** X8.  A 304 answer to the request the run makes (the url of the
    configuration, the conditional headers built from the stored state, the
    configured credentials) ends the whole run with the empty list, the "no
    entries is ok" flag set and the persisted state as it was; nothing is
    parsed and no file is written. *)
Theorem not_modified_returns_empty task c cs cfg h st2 r :
  (build_config c (initial_state cs)).1 = Next cfg ->
  is_remote (cfg_url cfg) = true ->
  conditional_headers
    (cfg_all_entries cfg || config_modified task || options_nocache task)
    (log_ LDebug "Requesting task `%s` url `%s`" (initial_state cs)).2 = (Next h, st2) ->
  requests_get (cfg_url cfg) h
    (match cfg_username cfg, cfg_password cfg with
     | Some u, Some p => Some (u, p)
     | _, _ => None
     end) = Some r ->
  status_code r = 304 ->
  exists st,
    run task c cs = (Returned (Some []), st) /\
    simple_persistence st = cs /\
    no_entries_ok st = true /\
    entries st = [] /\
    received st = [].
Proof.
  intros Hcfg Hremote Hh Hget H304.
  pose proof (build_config_state c (initial_state cs)) as Hst.
  unfold run, on_task_input. rewrite bind_unfold.
  destruct (build_config c (initial_state cs)) as [o st1]. simpl in Hcfg, Hst. subst o st1.
  rewrite bind_unfold, (log_eq LDebug _ (initial_state cs)). cbv zeta.
  rewrite bind_unfold.
  destruct (conditional_headers_effect
              (cfg_all_entries cfg || config_modified task || options_nocache task)
              (log_ LDebug "Requesting task `%s` url `%s`" (initial_state cs)).2)
    as (h' & st2' & Heq & Hp & He & Hf & Hr & _).
  rewrite Hh in Heq. injection Heq as <- <-.
  rewrite Hh, bind_unfold. unfold get_content. rewrite Hremote, Hget, H304. simpl.
  eexists. split; [reflexivity |]. simpl. repeat split; auto.
Qed.

Lemma process_invalid_content_effect task data st :
  exists st',
    process_invalid_content task (Some data) st = (Next tt, st') /\
    received st' = (received st ++ [(received_name task data, data)])%list /\
    simple_persistence st' = simple_persistence st /\
    entries st' = entries st /\
    no_entries_ok st' = no_entries_ok st.
Proof.
  unfold process_invalid_content, received_name, bind. cbv zeta.
  destruct (contains "<html>" (ascii_lower data));
    destruct (contains "login" (ascii_lower data) || contains "username" (ascii_lower data));
    destruct (contains "error" (ascii_lower data));
    simpl; eexists; repeat split; reflexivity.
Qed.

(** X9.  When the parser reports an XML error, or an exception of an
    unknown class, and no entry, the classification saves the received
    data, unchanged, to one file named after the task ([.html] when the
    data holds [<html>] in any letter case, [.xml] otherwise) and raises a
    [PluginError]; the persisted state and the entries are untouched. *)
Theorem fatal_fault_dumps_once task cfg data rss ex st :
  bozo_exception_of rss = Some ex ->
  fatal_without_entries ex = true ->
  feed_entries rss = [] ->
  exists msg st',
    check_bozo task cfg data rss st = (Raise (PluginError msg), st') /\
    received st' = (received st ++ [(received_name task data, data)])%list /\
    simple_persistence st' = simple_persistence st /\
    entries st' = entries st.
Proof.
  intros Hex Hfatal Hnone. unfold check_bozo, has_entries. rewrite Hex, Hnone.
  destruct (process_invalid_content_effect task data st) as (st1 & Hrun & Hr & Hp & He & _).
  destruct ex; try discriminate; cbv beta iota delta [negb];
    rewrite bind_unfold, Hrun.
  - destruct (options_debug task); simpl; eexists _, _; repeat split; eauto.
  - eexists _, _. repeat split; eauto.
Qed.

(** X10.  When the feed has entries the classification never saves the
    received data and never raises a [PluginError]: it goes on, with the
    error ignored for the encoding notices and for a unicode or XML error,
    or it raises the transport exception of the parse result again, as it
    is and with the state untouched. *)
Theorem bozo_with_entries_never_dumps task cfg data rss st :
  feed_entries rss <> [] ->
  match check_bozo task cfg data rss st with
  | (Next ignore, st') =>
      received st' = received st /\
      simple_persistence st' = simple_persistence st /\
      entries st' = entries st /\
      (forall ex, bozo_exception_of rss = Some ex ->
         is_transport ex = false /\
         (ex = NonXMLContentType \/ ex = CharacterEncodingOverride \/
          ex = UnicodeEncodeError \/ ex = SAXParseException -> ignore = true))
  | (Raise e, st') =>
      st' = st /\
      exists ex, bozo_exception_of rss = Some ex /\ is_transport ex = true /\ e = BozoRaised ex
  | (Return _, _) => False
  end.
Proof.
  intros Hsome. unfold check_bozo, has_entries.
  destruct (feed_entries rss) as [| e0 rest]; [contradiction |].
  destruct (bozo_exception_of rss) as [[| | | | | | c] |]; simpl.
  1-4: (split; [reflexivity | split; [reflexivity | split; [reflexivity |]]];
        intros k [= <-]; split; [reflexivity | intros _; reflexivity]).
  - split; [reflexivity |]. exists BadStatusLine. auto.
  - split; [reflexivity |]. exists BozoIOError. auto.
  - split; [reflexivity | split; [reflexivity | split; [reflexivity |]]].
    intros k [= <-]. split; [reflexivity |].
    intros [Hx | [Hx | [Hx | Hx]]]; discriminate.
  - split; [reflexivity | split; [reflexivity | split; [reflexivity |]]].
    intros k. discriminate.
Qed.

(* ===================================================================== *)
(** ** Further properties: the scan of the entries *)
(* ===================================================================== *)

(** The two ways one pass of the loop body ends when it goes on: it stops
    the scan at the entry of the stored fingerprint, or it has dealt with
    the entry. *)
Lemma loop_body_entry cfg last e st ctl e' st' :
  loop_body cfg last e st = (Next (ctl, e'), st') ->
  (ctl = Break /\
   exists fp, last = Some (VStr fp) /\ spec_fingerprint cfg e = Some fp /\
              same_entry_data e e') \/
  (ctl = Continue /\ scanned_entry cfg e e').
Proof.
  unfold loop_body, scanned_entry, spec_fingerprint.
  destruct (fields e !! default "title" (cfg_title cfg)) as [[t | b n] |] eqn:Ht.
  - simpl. destruct (str_truthy t) eqn:Htt.
    + rewrite bind_unfold. unfold fingerprint, getattr_entry. simpl.
      destruct (fields e !! "guid") as [[g | b n] |] eqn:Hg; simpl; [| discriminate |].
      all: case_bool_decide as Hfp;
        [ unfold bind, log_, set_no_entries_ok, ret; intros [= <- <- _];
          left; split; [reflexivity |]; eexists; split; [exact Hfp |];
          split; [reflexivity |]; repeat split
        | ].
      all: fold (clean_title cfg t).
      all: repeat
             match goal with
             | |- bind _ _ _ = _ -> _ => rewrite bind_unfold
             | |- ret _ _ = _ -> _ => intros [= <- <- _]; right; split; reflexivity
             | |- (match ?x with _ => _ end) = _ -> _ =>
                 first [ destruct x as [[? | ? | ?] ?] | destruct x ]
             | |- (match ?x with _ => _ end) _ = _ -> _ => destruct x
             | |- _ = _ -> _ => discriminate
             end.
    + unfold bind, log_, incr_ignored, ret. intros [= <- <- _]. right. auto.
  - simpl. destruct b.
    + rewrite bind_unfold. unfold fingerprint, getattr_entry. simpl. discriminate.
    + unfold bind, log_, incr_ignored, ret. intros [= <- <- _]. right. auto.
  - unfold bind, log_, incr_ignored, ret. intros [= <- <- _]. right. auto.
Qed.

Lemma scanned_entry_data cfg e e' : scanned_entry cfg e e' -> same_entry_data e e'.
Proof.
  unfold scanned_entry, same_entry_data.
  destruct (fields e !! default "title" (cfg_title cfg)) as [[t | b n] |].
  - destruct (str_truthy t); intros ->; auto.
  - intros [_ ->]. auto.
  - intros ->. auto.
Qed.

(** X11.  The loop never drops, adds or reorders the entries of the feed:
    when it goes on, it hands back as many entries as it got, each with the
    keys, the enclosures and the date it had; only the title attribute may
    have been set. *)
Theorem rss_loop_keeps_entries cfg last es :
  forall st es' st',
    rss_loop cfg last es st = (Next es', st') ->
    Forall2 same_entry_data es es'.
Proof.
  induction es as [| e rest IH]; intros st es' st'; simpl.
  - intros [= <- _]. constructor.
  - rewrite bind_unfold.
    destruct (loop_body cfg last e st) as [[[ctl e1] | r | ex] st1] eqn:Hbody;
      try discriminate.
    assert (Hdata : same_entry_data e e1).
    { destruct (loop_body_entry _ _ _ _ _ _ _ Hbody) as [(_ & fp & _ & _ & Hd) | [_ Hs]];
        [exact Hd | eapply scanned_entry_data; eauto]. }
    destruct ctl.
    + rewrite bind_unfold.
      destruct (rss_loop cfg last rest st1) as [[rest' | r | ex] st2] eqn:Hrest;
        try discriminate.
      intros [= <- _]. constructor; [exact Hdata | eapply IH; eauto].
    + intros [= <- _]. constructor; [exact Hdata |].
      clear. induction rest; constructor; auto. repeat split.
Qed.

Lemma spec_fingerprint_not_empty cfg e : spec_fingerprint cfg e <> Some "".
Proof.
  unfold spec_fingerprint.
  destruct (fields e !! default "title" (cfg_title cfg)) as [[t | b n] |]; try discriminate.
  destruct t as [| c t]; simpl; [discriminate |].
  destruct (fields e !! "guid") as [[g | b n] |]; discriminate.
Qed.

(** X12.  Without a stored fingerprint (a first run, where nothing is
    stored, or the [all_entries] mode, where the empty text stands for it)
    no entry stops the scan: a loop that goes on has dealt with every entry
    of the feed, and each entry with a title text carries its cleaned title
    as title attribute. *)
Theorem scan_without_fingerprint_visits_all cfg last es :
  last = None \/ last = Some (VStr "") ->
  forall st es' st',
    rss_loop cfg last es st = (Next es', st') ->
    Forall2 (scanned_entry cfg) es es'.
Proof.
  intros Hlast.
  induction es as [| e rest IH]; intros st es' st'; simpl.
  - intros [= <- _]. constructor.
  - rewrite bind_unfold.
    destruct (loop_body cfg last e st) as [[[ctl e1] | r | ex] st1] eqn:Hbody;
      try discriminate.
    destruct (loop_body_entry _ _ _ _ _ _ _ Hbody) as [(_ & fp & Hfp & Hspec & _) | [-> Hs]].
    + exfalso. destruct Hlast as [-> | ->]; [discriminate |].
      injection Hfp as <-. exact (spec_fingerprint_not_empty _ _ Hspec).
    + rewrite bind_unfold.
      destruct (rss_loop cfg last rest st1) as [[rest' | r | ex] st2] eqn:Hrest;
        try discriminate.
      intros [= <- _]. constructor; [exact Hs | eapply IH; eauto].
Qed.

(* ===================================================================== *)
(** ** Further properties: the links of an entry *)
(* ===================================================================== *)


(** The invariant of the loop over a list of link fields, [seen] being the
    fields dealt with so far: either none of them had a truthy value and
    nothing was found yet, or [url] is the value of the first of them that
    had one and heads the duplicate-free [urls], which holds exactly the
    truthy values of the fields seen. *)
Lemma list_urls_invariant entry names :
  forall (seen : list string) (e : Entry),
    (e !! "url" = None /\ e !! "urls" = None /\
     Forall (fun f => get_truthy (fields entry !! f) = false) seen \/
     exists v l,
       e !! "url" = Some (EVal v) /\ e !! "urls" = Some (EList (v :: l)) /\
       NoDup (v :: l) /\
       (forall w, w ∈ v :: l <->
          exists f, f ∈ seen /\ fields entry !! f = Some w /\ truthy w = true) /\
       (exists pre f post,
          seen = (pre ++ f :: post)%list /\
          Forall (fun f' => get_truthy (fields entry !! f') = false) pre /\
          fields entry !! f = Some v /\ truthy v = true)) ->
    let e' := list_urls entry names e in
    (e' = e /\ e !! "url" = None /\ e !! "urls" = None /\
     Forall (fun f => get_truthy (fields entry !! f) = false) (seen ++ names)%list \/
     exists v l,
       e' !! "url" = Some (EVal v) /\ e' !! "urls" = Some (EList (v :: l)) /\
       NoDup (v :: l) /\
       (forall w, w ∈ v :: l <->
          exists f, f ∈ (seen ++ names)%list /\ fields entry !! f = Some w /\
                    truthy w = true) /\
       (exists pre f post,
          (seen ++ names)%list = (pre ++ f :: post)%list /\
          Forall (fun f' => get_truthy (fields entry !! f') = false) pre /\
          fields entry !! f = Some v /\ truthy v = true)).
Proof.
  induction names as [| f rest IH]; intros seen e Hinv; simpl.
  - rewrite app_nil_r.
    destruct Hinv as [(Hu & Hl & Hno) | Hsome]; [left; auto | right; exact Hsome].
  - replace (seen ++ f :: rest)%list with ((seen ++ [f]) ++ rest)%list
      by (rewrite <- app_assoc; reflexivity).
    (* a field without truthy value changes nothing *)
    assert (Hskip : get_truthy (fields entry !! f) = false ->
              e !! "url" = None /\ e !! "urls" = None /\
              Forall (fun f => get_truthy (fields entry !! f) = false) (seen ++ [f])%list \/
              exists v l,
                e !! "url" = Some (EVal v) /\ e !! "urls" = Some (EList (v :: l)) /\
                NoDup (v :: l) /\
                (forall w, w ∈ v :: l <->
                   exists f0, f0 ∈ (seen ++ [f])%list /\ fields entry !! f0 = Some w /\
                              truthy w = true) /\
                (exists pre f0 post,
                   (seen ++ [f])%list = (pre ++ f0 :: post)%list /\
                   Forall (fun f' => get_truthy (fields entry !! f') = false) pre /\
                   fields entry !! f0 = Some v /\ truthy v = true)).
    { intros Hf.
      destruct Hinv as [(Hu & Hl & Hno) | (v & l & Hu & Hl & Hnd & Hiff & Hfirst)].
      - left. split; [exact Hu |]. split; [exact Hl |].
        apply Forall_app. split; [exact Hno | constructor; [exact Hf | constructor]].
      - right. exists v, l. split; [exact Hu |]. split; [exact Hl |].
        split; [exact Hnd |]. split.
        + intros w. rewrite Hiff. split.
          * intros (f0 & Hin & Hw & Ht). exists f0.
            split; [apply elem_of_app; now left | auto].
          * intros (f0 & Hin & Hw & Ht). apply elem_of_app in Hin.
            destruct Hin as [Hin | Hin]; [exists f0; auto |].
            apply list_elem_of_singleton in Hin. subst f0.
            rewrite Hw in Hf. simpl in Hf. congruence.
        + destruct Hfirst as (pre & f0 & post & -> & Hpre & Hv & Htv).
          exists pre, f0, (post ++ [f])%list.
          split; [rewrite <- app_assoc; reflexivity | auto]. }
    destruct (fields entry !! f) as [w |] eqn:Hw; [| apply IH, Hskip; reflexivity].
    destruct (truthy w) eqn:Htw; [| apply IH, Hskip; exact Htw].
    clear Hskip. right.
    assert (Hstep : forall e1 : Entry,
              (exists v l,
                 e1 !! "url" = Some (EVal v) /\ e1 !! "urls" = Some (EList (v :: l)) /\
                 NoDup (v :: l) /\
                 (forall x, x ∈ v :: l <->
                    exists f0, f0 ∈ (seen ++ [f])%list /\ fields entry !! f0 = Some x /\
                               truthy x = true) /\
                 (exists pre f0 post,
                    (seen ++ [f])%list = (pre ++ f0 :: post)%list /\
                    Forall (fun f' => get_truthy (fields entry !! f') = false) pre /\
                    fields entry !! f0 = Some v /\ truthy v = true)) ->
              exists v l,
                list_urls entry rest e1 !! "url" = Some (EVal v) /\
                list_urls entry rest e1 !! "urls" = Some (EList (v :: l)) /\
                NoDup (v :: l) /\
                (forall x, x ∈ v :: l <->
                   exists f0, f0 ∈ ((seen ++ [f]) ++ rest)%list /\
                              fields entry !! f0 = Some x /\ truthy x = true) /\
                (exists pre f0 post,
                   ((seen ++ [f]) ++ rest)%list = (pre ++ f0 :: post)%list /\
                   Forall (fun f' => get_truthy (fields entry !! f') = false) pre /\
                   fields entry !! f0 = Some v /\ truthy v = true)).
    { intros e1 Hsome.
      destruct (IH (seen ++ [f])%list e1 (or_intror Hsome)) as [(_ & Hu & _) | Hres];
        [| exact Hres].
      destruct Hsome as (v & l & Hv & _). congruence. }
    apply Hstep.
    destruct Hinv as [(Hu & Hl & Hno) | (v & l & Hu & Hl & Hnd & Hiff & Hfirst)].
    + rewrite Hu. cbv beta iota zeta.
      rewrite (lookup_insert_ne e "url" "urls") by discriminate. rewrite Hl.
      cbv beta iota zeta.
      rewrite bool_decide_eq_false_2 by apply not_elem_of_nil.
      exists w, []. rewrite lookup_insert_ne by discriminate.
      rewrite lookup_insert_eq, lookup_insert_eq.
      split; [reflexivity |]. split; [reflexivity |].
      split; [apply NoDup_singleton |]. split.
      * intros x. rewrite list_elem_of_singleton. split.
        -- intros ->. exists f. split; [apply elem_of_app; right; now left | auto].
        -- intros (f0 & Hin & Hx & Htx). apply elem_of_app in Hin.
           destruct Hin as [Hin | Hin].
           ++ rewrite Forall_forall in Hno. specialize (Hno _ Hin).
              rewrite Hx in Hno. simpl in Hno. congruence.
           ++ apply list_elem_of_singleton in Hin. subst f0. congruence.
      * exists seen, f, []. auto.
    + rewrite Hu. cbv beta iota zeta. rewrite Hl. cbv beta iota zeta.
      assert (Hfirst' : exists pre f0 post,
                (seen ++ [f])%list = (pre ++ f0 :: post)%list /\
                Forall (fun f' => get_truthy (fields entry !! f') = false) pre /\
                fields entry !! f0 = Some v /\ truthy v = true).
      { destruct Hfirst as (pre & f0 & post & -> & Hpre & Hv & Htv).
        exists pre, f0, (post ++ [f])%list.
        split; [rewrite <- app_assoc; reflexivity | auto]. }
      case_bool_decide as Hin.
      * exists v, l. rewrite lookup_insert_ne by discriminate.
        rewrite lookup_insert_eq.
        split; [exact Hu |]. split; [reflexivity |]. split; [exact Hnd |].
        split; [| exact Hfirst'].
        intros x. rewrite Hiff. split.
        -- intros (f0 & Hf0 & Hx & Htx). exists f0.
           split; [apply elem_of_app; now left | auto].
        -- intros (f0 & Hf0 & Hx & Htx). apply elem_of_app in Hf0.
           destruct Hf0 as [Hf0 | Hf0]; [exists f0; auto |].
           apply list_elem_of_singleton in Hf0. subst f0.
           assert (x = w) by congruence. subst x. apply Hiff. exact Hin.
      * exists v, (l ++ [w])%list. rewrite lookup_insert_ne by discriminate.
        rewrite lookup_insert_eq. split; [exact Hu |]. split; [reflexivity |].
        change (v :: l ++ [w])%list with ((v :: l) ++ [w])%list.
        split.
        -- apply NoDup_app. split; [exact Hnd |]. split; [| apply NoDup_singleton].
           intros x Hx Hx'. apply list_elem_of_singleton in Hx'. subst x. contradiction.
        -- split; [| exact Hfirst'].
           intros x. rewrite elem_of_app, list_elem_of_singleton, Hiff. split.
           ++ intros [(f0 & Hf0 & Hx & Htx) | ->].
              ** exists f0. split; [apply elem_of_app; now left | auto].
              ** exists f. split; [apply elem_of_app; right; now left | auto].
           ++ intros (f0 & Hf0 & Hx & Htx). apply elem_of_app in Hf0.
              destruct Hf0 as [Hf0 | Hf0]; [left; exists f0; auto |].
              apply list_elem_of_singleton in Hf0. subst f0. right. congruence.
Qed.

(** X14.  A [link] given as a list of fields.  Either no listed field has
    a truthy value, and then the Entry stays empty; or [url] is the value
    of the first listed field that has one and is the first element of
    [urls], and [urls] holds no value twice and exactly the truthy values
    of the listed fields. *)
Theorem list_urls_first_and_unique entry names :
  let e := list_urls entry names ∅ in
  (e = ∅ /\ Forall (fun f => get_truthy (fields entry !! f) = false) names) \/
  exists v l,
    e !! "url" = Some (EVal v) /\
    e !! "urls" = Some (EList (v :: l)) /\
    NoDup (v :: l) /\
    Forall (fun w => truthy w = true) (v :: l) /\
    (forall w, w ∈ v :: l <->
       exists f, f ∈ names /\ fields entry !! f = Some w /\ truthy w = true) /\
    (exists pre f post,
       names = (pre ++ f :: post)%list /\
       Forall (fun f' => get_truthy (fields entry !! f') = false) pre /\
       fields entry !! f = Some v /\ truthy v = true).
Proof.
  destruct (list_urls_invariant entry names [] ∅)
    as [(Hempty & _ & _ & Hno) | (v & l & Hu & Hl & Hnd & Hiff & Hfirst)].
  - left. split; [apply lookup_empty |]. split; [apply lookup_empty | constructor].
  - left. split; [exact Hempty | exact Hno].
  - right. exists v, l. split; [exact Hu |]. split; [exact Hl |]. split; [exact Hnd |].
    split; [| split; [exact Hiff | exact Hfirst]].
    apply Forall_forall. intros w Hw. apply Hiff in Hw.
    destruct Hw as (f & _ & _ & Ht). exact Ht.
Qed.

Lemma enclosure_hrefs_spec encs urls :
  forall st more st',
    enclosure_hrefs encs urls st = (Next more, st') ->
    st' = st /\
    (forall enc, enc ∈ encs ->
       exists h, href enc = Some h /\ (VStr h ∈ urls \/ VStr h ∈ more)) /\
    (forall v, v ∈ more -> v ∉ urls).
Proof.
  induction encs as [| enc rest IH]; intros st more st'; simpl.
  - intros [= <- <-]. split; [reflexivity |]. split.
    + intros enc Hin. apply elem_of_nil in Hin. destruct Hin.
    + intros v Hin. apply elem_of_nil in Hin. destruct Hin.
  - destruct (href enc) as [h |] eqn:Hh; [| discriminate].
    rewrite bind_unfold.
    destruct (enclosure_hrefs rest urls st) as [[r | ? | ?] s1] eqn:Hrest; try discriminate.
    destruct (IH _ _ _ Hrest) as (-> & Hcover & Hnew).
    intros [= <- <-]. split; [reflexivity |]. split.
    + intros enc' Hin. apply elem_of_cons in Hin. destruct Hin as [-> | Hin].
      * exists h. split; [exact Hh |].
        case_bool_decide as Hold; [left; exact Hold | right; now left].
      * destruct (Hcover _ Hin) as (h' & Hh' & [Hold | Hmore]); exists h';
          (split; [exact Hh' |]); [left; exact Hold |].
        right. case_bool_decide; [exact Hmore | now right].
    + intros v Hin. case_bool_decide as Hold; [apply Hnew, Hin |].
      apply elem_of_cons in Hin. destruct Hin as [-> | Hin]; [exact Hold | apply Hnew, Hin].
Qed.

(** X15.  When [group_links] goes on, it has left [url] and the state as
    they were, and [urls] is the list it found ([[url]] when there was
    none) followed by urls of enclosures that were not yet in that list;
    afterwards the url of every enclosure of the item is among [urls]. *)
Theorem group_links_covers_enclosures entry (e : Entry) st e' st' :
  group_links entry e st = (Next e', st') ->
  st' = st /\
  e' !! "url" = e !! "url" /\
  exists before more,
    before =
      (match e !! "urls", e !! "url" with
       | Some (EList l), _ => l
       | _, Some (EVal v) => [v]
       | _, _ => []
       end) /\
    entry_urls e' = (before ++ more)%list /\
    (forall v, v ∈ more -> v ∉ before) /\
    (forall enc, enc ∈ enclosures entry ->
       exists h, href enc = Some h /\ VStr h ∈ entry_urls e').
Proof.
  unfold group_links, entry_getitem. rewrite bind_unfold.
  destruct (e !! "url") as [u |] eqn:Hu; [| discriminate].
  simpl. rewrite bind_unfold.
  set (before := match e !! "urls" with
                 | Some (EList l) => l
                 | _ => match u with EVal v => [v] | _ => [] end
                 end).
  destruct (enclosure_hrefs (enclosures entry) before st) as [[more | ? | ?] s1] eqn:Hrun;
    try discriminate.
  destruct (enclosure_hrefs_spec _ _ _ _ _ Hrun) as (-> & Hcover & Hnew).
  intros [= <- <-]. split; [reflexivity |].
  split; [rewrite lookup_insert_ne by discriminate; exact Hu |].
  exists before, more.
  assert (Hurls : entry_urls (<["urls" := EList (before ++ more)%list]> e) = (before ++ more)%list).
  { unfold entry_urls. rewrite lookup_insert_eq. reflexivity. }
  split.
  { subst before. destruct (e !! "urls") as [[] |]; try reflexivity;
      destruct u; reflexivity. }
  split; [exact Hurls |]. split; [exact Hnew |].
  intros enc Hin. destruct (Hcover _ Hin) as (h & Hh & Hor).
  exists h. split; [exact Hh |]. rewrite Hurls. apply elem_of_app. exact Hor.
Qed.

(** X16.  An entry with a non-empty title text that the clean-up leaves as
    it is, once dealt with by the loop: saved as the last spot, its
    fingerprint is its title followed by its guid (the empty text without
    guid); and a later scan against that fingerprint stops at this entry,
    adds no item and sets the "no entries is ok" flag. *)
Theorem clean_title_rescan_stops cfg last e st e' st' t g :
  loop_body cfg last e st = (Next (Continue, e'), st') ->
  fields e !! default "title" (cfg_title cfg) = Some (VStr t) ->
  str_truthy t = true ->
  default (VStr "") (fields e !! "guid") = VStr g ->
  clean_title cfg t = t ->
  (forall rest st1,
     exists st2,
       save_last_entry (e' :: rest) st1 = (Next tt, st2) /\
       cs_last_entry (simple_persistence st2) = Some (VStr (t ++ g))) /\
  (forall post st3,
     exists es' st4,
       rss_loop cfg (Some (VStr (t ++ g))) (e :: post) st3 = (Next es', st4) /\
       entries st4 = entries st3 /\
       ignored st4 = ignored st3 /\
       no_entries_ok st4 = true).
Proof.
  intros Hbody Ht Htt Hg Hclean.
  destruct (loop_body_entry _ _ _ _ _ _ _ Hbody) as [[Hctl _] | [_ Hs]]; [discriminate |].
  unfold scanned_entry in Hs. rewrite Ht, Htt, Hclean in Hs. subst e'.
  split.
  - intros rest st1. unfold save_last_entry.
    rewrite bind_unfold, log_eq, bind_unfold.
    unfold fingerprint, getattr_entry. simpl. rewrite Hg. simpl.
    eexists. split; reflexivity.
  - intros post st3. simpl. rewrite bind_unfold.
    rewrite (loop_body_match _ _ _ _ _ Ht Htt Hg).
    eexists _, _. split; [reflexivity |]. repeat split.
Qed.

End Coverage.

(* ===================================================================== *)
(** ** Further properties: the url rewriters and the directory listing *)
(* ===================================================================== *)

Lemma startswith_app p s : startswith p s = true -> exists rest, s = p ++ rest.
Proof.
  revert s. induction p as [| a p IH]; intros s; simpl.
  - intros _. exists s. reflexivity.
  - destruct s as [| b s]; [discriminate |].
    destruct (Ascii.eqb_spec a b) as [-> | Hne]; [| discriminate].
    intros Hp. destruct (IH _ Hp) as [rest ->]. exists rest. reflexivity.
Qed.

(** X17.  An entry the NyaaTorrents resolver takes (its url starts with the
    address of a torrent info page) has, once resolved, a url that starts
    with the address of the download, and is not taken again: resolving
    ends after one step. *)
Theorem nyaa_resolve_once (entry : Entry) :
  ResolveNyaaTorrents.resolvable entry = inr true ->
  exists entry' rest,
    ResolveNyaaTorrents.resolve entry = inr entry' /\
    entry' !! "url" =
      Some (EVal (VStr ("http://www.nyaatorrents.org/?page=download&tid=" ++ rest))) /\
    ResolveNyaaTorrents.resolvable entry' = inr false.
Proof.
  unfold ResolveNyaaTorrents.resolvable, ResolveNyaaTorrents.resolve, entry_url_text.
  destruct (entry !! "url") as [[[u | b n] | | |] |]; try discriminate.
  intros Hres.
  assert (Hp : startswith "http://www.nyaatorrents.org/?page=torrentinfo&tid=" u = true)
    by congruence.
  clear Hres. destruct (startswith_app _ _ Hp) as [rest ->]. clear Hp.
  eexists _, (py_replace "torrentinfo" "download" rest).
  split; [reflexivity |]. split; [rewrite lookup_insert_eq; reflexivity |].
  rewrite lookup_insert_eq. reflexivity.
Qed.

(** X18.  An entry the BtChat rewriter takes has, once rewritten, a url
    that starts with the address of [download1.php], and is not taken
    again: rewriting ends after one step. *)
Theorem btchat_rewrite_once (entry : Entry) :
  UrlRewriteBtChat.url_rewritable entry = inr true ->
  exists entry' rest,
    UrlRewriteBtChat.url_rewrite entry = inr entry' /\
    entry' !! "url" =
      Some (EVal (VStr ("http://www.bt-chat.com/download1.php" ++ rest))) /\
    UrlRewriteBtChat.url_rewritable entry' = inr false.
Proof.
  unfold UrlRewriteBtChat.url_rewritable, UrlRewriteBtChat.url_rewrite, entry_url_text.
  destruct (entry !! "url") as [[[u | b n] | | |] |]; try discriminate.
  intros Hres.
  assert (Hp : startswith "http://www.bt-chat.com/download.php" u = true) by congruence.
  clear Hres. destruct (startswith_app _ _ Hp) as [rest ->]. clear Hp.
  eexists _, (py_replace "download.php" "download1.php" rest).
  split; [reflexivity |]. split; [rewrite lookup_insert_eq; reflexivity |].
  rewrite lookup_insert_eq. reflexivity.
Qed.

Section ListdirProperties.

Variable expanduser : string -> string.
Variable os_listdir : string -> Listdir.listdir_error + list string.
Variable path_join : string -> string -> string.

Lemma list_paths_spec paths :
  forall acc out,
    Listdir.list_paths expanduser os_listdir path_join paths acc = inr out ->
    exists new,
      out = (acc ++ new)%list /\
      Forall (fun e : Entry =>
                exists path name rest,
                  path ∈ paths /\
                  os_listdir (expanduser path) = inr rest /\ name ∈ rest /\
                  e = Listdir.entry_of_name path_join (expanduser path) name) new /\
      Forall (fun path => exists names, os_listdir (expanduser path) = inr names) paths.
Proof.
  induction paths as [| path rest IH]; intros acc out; simpl.
  - intros [= <-]. exists []. rewrite app_nil_r. repeat split; constructor.
  - destruct (os_listdir (expanduser path)) as [err | names] eqn:Hnames; [discriminate |].
    intros Hrun. destruct (IH _ _ Hrun) as (new & -> & Hnew & Hok).
    exists (map (Listdir.entry_of_name path_join (expanduser path)) names ++ new)%list.
    split; [rewrite app_assoc; reflexivity |]. split.
    + apply Forall_app. split.
      * apply Forall_forall. intros e He. apply list_elem_of_fmap in He.
        destruct He as (name & -> & Hname).
        exists path, name, names. repeat split; auto. now left.
      * eapply Forall_impl; [exact Hnew |]. simpl.
        intros e (p & name & l & Hp & Hl & Hn & He).
        exists p, name, l. repeat split; auto. now right.
    + constructor; [exists names; exact Hnames | exact Hok].
Qed.

(** X19.  Every entry of a directory listing is made of a name that
    [os.listdir] gave for one of the configured paths: its title and its
    file name are that name, its location is the path joined with the name,
    and its url starts with [file:///] whatever the joined path looks like.
    A listing that goes on has listed every configured path. *)
Theorem listdir_entries config out :
  Listdir.on_task_input expanduser os_listdir path_join config = inr out ->
  Forall (fun e : Entry =>
            exists path name names,
              path ∈ (match config with Listdir.OnePath p => [p] | Listdir.Paths l => l end) /\
              os_listdir (expanduser path) = inr names /\ name ∈ names /\
              e !! "title" = Some (EVal (VStr name)) /\
              e !! "filename" = Some (EVal (VStr name)) /\
              e !! "location" = Some (EVal (VStr (path_join (expanduser path) name))) /\
              exists rest, e !! "url" = Some (EVal (VStr ("file:///" ++ rest)))) out /\
  Forall (fun path => exists names, os_listdir (expanduser path) = inr names)
    (match config with Listdir.OnePath p => [p] | Listdir.Paths l => l end).
Proof.
  unfold Listdir.on_task_input. intros Hrun.
  destruct (list_paths_spec _ _ _ Hrun) as (new & -> & Hnew & Hok).
  split; [| exact Hok]. simpl.
  eapply Forall_impl; [exact Hnew |]. simpl.
  intros e (path & name & names & Hp & Hl & Hn & ->).
  exists path, name, names. split; [exact Hp |]. split; [exact Hl |]. split; [exact Hn |].
  unfold Listdir.entry_of_name. cbv zeta.
  split; [rewrite !lookup_insert_ne by discriminate; apply lookup_insert_eq |].
  split; [apply lookup_insert_eq |].
  split; [rewrite lookup_insert_ne by discriminate; apply lookup_insert_eq |].
  rewrite !lookup_insert_ne by discriminate. rewrite lookup_insert_eq.
  destruct (startswith "/" (path_join (expanduser path) name)) eqn:Hslash; simpl.
  - destruct (startswith_app _ _ Hslash) as [rest ->]. exists rest. reflexivity.
  - eexists. reflexivity.
Qed.

End ListdirProperties.

(* ===================================================================== *)
(** ** Further properties: whole runs *)
(* ===================================================================== *)

Section Runs.

Context `{Collaborators}.

(** X20.  With [all_entries] configured a run never writes the stored etag
    and last-modified, however it ends. *)
Theorem all_entries_never_saves_validators task c st cfg :
  (build_config c st).1 = Next cfg ->
  cfg_all_entries cfg = true ->
  same_validators st (on_task_input task c st).2.
Proof.
  intros Hcfg Hall.
  destruct (on_task_input_validators task c st) as [(cfg' & Hcfg' & Hfetch) | Hsame];
    [| exact Hsame].
  exfalso. rewrite Hcfg in Hcfg'. injection Hcfg' as <-.
  destruct Hfetch as (h & a & r & _ & _ & _ & Hfalse). congruence.
Qed.

(** X21.  A feed that parses without fault and has no entry: the run goes
    to its end with the empty list, and beyond the log it leaves the state
    as the fetch left it; in particular no fingerprint is written and,
    unlike after a 304 answer, the "no entries is ok" flag is not set. *)
Theorem empty_feed_returns_empty task c cs cfg h st2 st3 data rss :
  (build_config c (initial_state cs)).1 = Next cfg ->
  conditional_headers
    (cfg_all_entries cfg || config_modified task || options_nocache task)
    (log_ LDebug "Requesting task `%s` url `%s`" (initial_state cs)).2 = (Next h, st2) ->
  get_content cfg h st2 = (Next data, st3) ->
  str_truthy data = true ->
  feedparser_parse data = Some rss ->
  bozo_exception_of rss = None ->
  bozo rss = Some false ->
  feed_entries rss = [] ->
  exists st,
    run task c cs = (Returned (Some []), st) /\
    simple_persistence st = simple_persistence st3 /\
    no_entries_ok st = no_entries_ok st3 /\
    received st = received st3 /\
    ignored st = 0%nat.
Proof.
  intros Hcfg Hh Hget Hdata Hparse Hex Hbozo Hnone.
  pose proof (build_config_state c (initial_state cs)) as Hst.
  unfold run, on_task_input. rewrite bind_unfold.
  destruct (build_config c (initial_state cs)) as [o st1]. simpl in Hcfg, Hst. subst o st1.
  rewrite bind_unfold, (log_eq LDebug _ (initial_state cs)). cbv zeta.
  rewrite bind_unfold, Hh, bind_unfold, Hget, Hdata.
  cbv beta iota delta [negb].
  rewrite bind_unfold, Hparse. cbv beta iota delta [ret].
  rewrite bind_unfold. unfold check_bozo. rewrite Hex. cbv beta iota delta [ret].
  rewrite bind_unfold, Hbozo. cbv beta iota delta [ret andb].
  rewrite bind_unfold, log_eq. cbv beta iota.
  rewrite Hnone.
  destruct (cfg_all_entries cfg || config_modified task || options_nocache task);
    simpl; eexists; (split; [reflexivity |]); simpl; auto.
Qed.

End Runs.

(* ===================================================================== *)
(** ** Further properties: the count of items and of skipped entries *)
(* ===================================================================== *)

Section Accounting.

Context `{Collaborators}.

(** One pass of the loop body over an entry that is not fanned out: it
    stops the scan and adds nothing, or it adds one item, or it counts the
    entry as skipped. *)
Lemma loop_body_accounts cfg last e st ctl e' st' :
  loop_body cfg last e st = (Next (ctl, e'), st') ->
  (1 <? List.length (enclosures e))%nat && negb (cfg_group_links cfg) = false ->
  (ctl = Break /\ entries st' = entries st /\ ignored st' = ignored st) \/
  (ctl = Continue /\
   ((exists ea, entries st' = (entries st ++ [ea])%list /\ ignored st' = ignored st) \/
    (entries st' = entries st /\ ignored st' = S (ignored st)))).
Proof.
  intros Hbody Hone. revert Hbody. unfold loop_body.
  assert (Hskip : forall (en : rss_entry) s c x s',
            (log_ LDebug "skipping entry without title" ;; incr_ignored ;;
             ret (Continue, en)) s = (Next (c, x), s') ->
            c = Continue /\ entries s' = entries s /\ ignored s' = S (ignored s)).
  { intros en s c x s'. unfold bind, log_, incr_ignored, ret. intros [= <- _ <-]. auto. }
  destruct (fields e !! default "title" (cfg_title cfg)) as [raw |];
    [| intros Hrun; right; destruct (Hskip _ _ _ _ _ Hrun) as (-> & ? & ?); auto].
  destruct (truthy raw);
    [| intros Hrun; right; destruct (Hskip _ _ _ _ _ Hrun) as (-> & ? & ?); auto].
  cbv zeta. rewrite bind_unfold.
  destruct (fingerprint (set_title_attr e raw) st) as [[fp | r | ex] s1] eqn:Hfp;
    try discriminate.
  destruct (keeps_run _ _ _ _ _ (frame_fingerprint _) Hfp) as [He1 Hi1].
  case_bool_decide as Hlast.
  - unfold bind, log_, set_no_entries_ok, ret. intros [= <- _ <-]. left. simpl. auto.
  - destruct raw as [t | b n]; [| discriminate].
    simpl enclosures. rewrite Hone.
    rewrite bind_unfold.
    destruct (resolve_links cfg _ s1) as [[ea | r | ex] s2] eqn:Hres; try discriminate.
    destruct (keeps_run _ _ _ _ _ (frame_resolve_links _ _) Hres) as [He2 Hi2].
    destruct (negb (entry_truthy ea "url")).
    + unfold bind, log_, incr_ignored, ret. intros [= <- _ <-]. right. simpl.
      split; [reflexivity |]. right. split; congruence.
    + rewrite bind_unfold.
      destruct (add_entry cfg _ _ ea s2) as [[[] | r | ex] s3] eqn:Hadd; try discriminate.
      destruct (add_entry_spec _ _ _ _ _ _ _ Hadd) as (ea' & He3 & Hi3 & _).
      intros [= <- _ <-]. right. split; [reflexivity |]. left.
      exists ea'. split; congruence.
Qed.

(** X22.  Where no entry is fanned out (at most one enclosure each, or
    [group_links] on), a scan that goes on only appends to the list of
    items, at most one item per entry; and without a stored fingerprint no
    entry is lost: every entry of the feed has given one item or has been
    counted as skipped. *)
Theorem scan_accounts_for_every_entry cfg last es :
  Forall (fun e =>
            (1 <? List.length (enclosures e))%nat && negb (cfg_group_links cfg) = false) es ->
  forall st es' st',
    rss_loop cfg last es st = (Next es', st') ->
    exists items k,
      entries st' = (entries st ++ items)%list /\
      ignored st' = (ignored st + k)%nat /\
      (List.length items + k <= List.length es)%nat /\
      (last = None \/ last = Some (VStr "") ->
       (List.length items + k = List.length es)%nat).
Proof.
  induction es as [| e rest IH]; intros Hall st es' st'; simpl.
  - intros [= _ <-]. exists [], 0%nat.
    rewrite app_nil_r, Nat.add_0_r. auto.
  - inversion Hall as [| ? ? Hone Hrest]; subst.
    rewrite bind_unfold.
    destruct (loop_body cfg last e st) as [[[ctl e1] | r | ex] st1] eqn:Hbody;
      try discriminate.
    destruct (loop_body_accounts _ _ _ _ _ _ _ Hbody Hone)
      as [(-> & He & Hi) | (-> & Hstep)].
    + intros [= _ <-]. exists [], 0%nat.
      rewrite app_nil_r, Nat.add_0_r. split; [exact He |]. split; [exact Hi |].
      split; [simpl; lia |].
      intros Hlast. exfalso.
      destruct (loop_body_entry _ _ _ _ _ _ _ Hbody) as [(_ & fp & Hfp & Hspec & _) | [Hc _]];
        [| discriminate].
      destruct Hlast as [-> | ->]; [discriminate |].
      injection Hfp as <-. exact (spec_fingerprint_not_empty _ _ Hspec).
    + rewrite bind_unfold.
      destruct (rss_loop cfg last rest st1) as [[rest' | r | ex] st2] eqn:Hloop;
        try discriminate.
      destruct (IH Hrest _ _ _ Hloop) as (items & k & He & Hi & Hle & Heq).
      intros [= _ <-].
      destruct Hstep as [(ea & He1 & Hi1) | (He1 & Hi1)].
      * exists (ea :: items), k. rewrite He, He1, Hi, Hi1, <- app_assoc.
        split; [reflexivity |]. split; [reflexivity |]. simpl.
        split; [lia |]. intros Hlast. specialize (Heq Hlast). lia.
      * exists items, (S k). rewrite He, He1, Hi, Hi1.
        split; [reflexivity |]. split; [lia |]. simpl.
        split; [lia |]. intros Hlast. specialize (Heq Hlast). lia.
Qed.

End Accounting.

(** X22 at the five entries, on a first run. *)
Lemma scan_accounts_for_every_entry_witness :
  let W := demo_world None None in
  let st := initial_state empty_cache in
  let st' := (@rss_loop W demo_cfg None five_entries st).2 in
  exists items k,
    entries st' = (entries st ++ items)%list /\
    ignored st' = (ignored st + k)%nat /\
    (List.length items + k <= List.length five_entries)%nat /\
    (@None value = None \/ None = Some (VStr "") ->
     (List.length items + k = List.length five_entries)%nat).
Proof.
  intros W st st'.
  refine (@scan_accounts_for_every_entry W demo_cfg None five_entries _ st
            (match (@rss_loop W demo_cfg None five_entries st).1 with
             | Next es' => es'
             | _ => []
             end) st' _).
  - repeat constructor.
  - vm_compute. reflexivity.
Defined.

Section DeadFrogProperties.

Variables page soup : Type.
Variable urlopener : evalue -> option page.
Variable get_soup : page -> option soup.
Variable find_download_link : soup -> option string.

(** X23.  An entry the DeadFrog rewriter has rewritten carries the site
    address followed by the [href] of the download link found on its page;
    the rewriter takes it again unless that [href] starts with
    [download/]: only then does rewriting end after one step. *)
Theorem deadfrog_rewrite_result (entry entry' : Entry) :
  UrlRewriteDeadFrog.url_rewrite page soup urlopener get_soup find_download_link entry
    = inr entry' ->
  exists p s href,
    (exists url, entry !! "url" = Some url /\ urlopener url = Some p) /\
    get_soup p = Some s /\
    find_download_link s = Some href /\
    entry' !! "url" = Some (EVal (VStr ("http://www.deadfrog.us/" ++ href))) /\
    UrlRewriteDeadFrog.url_rewritable entry' = inr (negb (startswith "download/" href)).
Proof.
  unfold UrlRewriteDeadFrog.url_rewrite, UrlRewriteDeadFrog.parse_download_page.
  destruct (entry !! "url") as [url |] eqn:Hurl; [| discriminate].
  destruct (urlopener url) as [p |] eqn:Hp; [| discriminate].
  destruct (get_soup p) as [s |] eqn:Hs; [| discriminate].
  destruct (find_download_link s) as [href |] eqn:Hl; [| discriminate].
  intros [= <-]. exists p, s, href.
  split; [exists url; auto |]. split; [exact Hs |]. split; [exact Hl |].
  split; [apply lookup_insert_eq |].
  unfold UrlRewriteDeadFrog.url_rewritable, entry_url_text.
  rewrite lookup_insert_eq.
  change (startswith "http://www.deadfrog.us/download/" ("http://www.deadfrog.us/" ++ href))
    with (startswith "download/" href).
  change (startswith "http://www.deadfrog.us/" ("http://www.deadfrog.us/" ++ href))
    with true.
  destruct (startswith "download/" href); reflexivity.
Qed.

End DeadFrogProperties.

(** X23 at a page whose download link is [download/7/a.torrent]. *)
Lemma deadfrog_rewrite_result_witness :
  let urlopener := fun _ : evalue => Some tt in
  let get_soup := fun _ : unit => Some tt in
  let find_download_link := fun _ : unit => Some "download/7/a.torrent" in
  let entry : Entry := <["url" := EVal (VStr "http://www.deadfrog.us/torrent/7")]> ∅ in
  let entry' : Entry :=
    <["url" := EVal (VStr "http://www.deadfrog.us/download/7/a.torrent")]> entry in
  exists p s href,
    (exists url, entry !! "url" = Some url /\ urlopener url = Some p) /\
    get_soup p = Some s /\
    find_download_link s = Some href /\
    entry' !! "url" = Some (EVal (VStr ("http://www.deadfrog.us/" ++ href))) /\
    UrlRewriteDeadFrog.url_rewritable entry' = inr (negb (startswith "download/" href)).
Proof.
  intros urlopener get_soup find_download_link entry entry'.
  apply (deadfrog_rewrite_result unit unit urlopener get_soup find_download_link entry entry').
  reflexivity.
Defined.

(* ===================================================================== *)
(** ** The further properties at concrete inputs *)
(* ===================================================================== *)

(** X1 at a title with a zero width space, under the [ascii] option. *)
Lemma ascii_title_is_clean_witness :
  let cfg :=
    {| cfg_url := demo_url; cfg_username := None; cfg_password := None;
       cfg_title := None; cfg_link := LinkText "auto"; cfg_other_fields := None;
       cfg_silent := None; cfg_ascii := Some true; cfg_filename := None;
       cfg_group_links := false; cfg_all_entries := false |} in
  let t := "A" ++ zwsp ++ "B" in
  Forall (fun c => (nat_of_ascii c < 128)%nat) (bytes_of (clean_title cfg t)) /\
  clean_title cfg t = encode_ascii_ignore t /\
  contains zwsp (clean_title cfg t) = false /\
  clean_title cfg (clean_title cfg t) = clean_title cfg t.
Proof. intros cfg t. apply (ascii_title_is_clean cfg t). reflexivity. Defined.

(** X5 at a 200 answer with an etag, from an empty cache. *)
Lemma get_content_goes_on_only_with_200_witness :
  let r := {| status_code := 200; resp_etag := Some "v2"; resp_last_modified := None;
              resp_www_authenticate := None; content := "<rss/>" |} in
  let W := demo_world (Some r) None in
  let h := {| if_none_match := None; if_modified_since := None |} in
  let st := initial_state empty_cache in
  let st' := (@get_content W demo_cfg h st).2 in
  cs_last_entry (simple_persistence st') = cs_last_entry (simple_persistence st) /\
  entries st' = entries st /\
  no_entries_ok st' = no_entries_ok st /\
  ((is_remote (cfg_url demo_cfg) = true /\
    exists r0,
      @requests_get W (cfg_url demo_cfg) h None = Some r0 /\
      status_code r0 = 200 /\
      "<rss/>" = content r0 /\
      cs_etag (simple_persistence st') =
        saved_slot demo_cfg (resp_etag r0) (cs_etag (simple_persistence st)) /\
      cs_modified (simple_persistence st') =
        saved_slot demo_cfg (resp_last_modified r0) (cs_modified (simple_persistence st)))
   \/
   (is_remote (cfg_url demo_cfg) = false /\
    @read_file W (cfg_url demo_cfg) = Some "<rss/>" /\ st' = st)).
Proof.
  intros r W h st st'.
  apply (@get_content_goes_on_only_with_200 W demo_cfg h st "<rss/>" st').
  reflexivity.
Defined.

(** X7 at a 404 answer. *)
Lemma http_error_status_raises_witness :
  let r := {| status_code := 404; resp_etag := None; resp_last_modified := None;
              resp_www_authenticate := None; content := "" |} in
  let W := demo_world (Some r) None in
  let h := {| if_none_match := None; if_modified_since := None |} in
  exists e, @get_content W demo_cfg h (initial_state empty_cache)
            = (Raise e, initial_state empty_cache).
Proof.
  intros r W h.
  apply (@http_error_status_raises W demo_cfg h (initial_state empty_cache) r);
    [reflexivity | reflexivity | vm_compute; discriminate | vm_compute; discriminate].
Defined.

(** X8 at a server that answers 304 to a request with an [If-None-Match]
    header and 200 to any other, from a cache that holds an etag. *)
Lemma not_modified_returns_empty_witness :
  let r := {| status_code := 304; resp_etag := Some "v3"; resp_last_modified := None;
              resp_www_authenticate := None; content := "" |} in
  let W :=
    {| unicode_lower := ascii_lower;
       decode_html := Some;
       py_int := demo_int;
       url_basename := demo_basename;
       requests_get := fun _ h _ =>
         match if_none_match h with
         | Some _ => Some r
         | None => Some (ok_response "<rss/>")
         end;
       read_file := fun _ => None;
       feedparser_parse := fun _ => Some (clean_feed five_entries) |} in
  let cs := {| cs_etag := Some (VStr "v2"); cs_modified := None;
               cs_last_entry := Some (VStr "Ag") |} in
  exists st,
    @run W demo_task (ConfigUrl demo_url) cs = (Returned (Some []), st) /\
    simple_persistence st = cs /\
    no_entries_ok st = true /\
    entries st = [] /\
    received st = [].
Proof.
  intros r W cs.
  apply (@not_modified_returns_empty W demo_task (ConfigUrl demo_url) cs demo_cfg
           {| if_none_match := Some (VStr "v2"); if_modified_since := None |}
           (conditional_headers false
              (log_ LDebug "Requesting task `%s` url `%s`" (initial_state cs)).2).2 r);
    reflexivity.
Defined.

(** X9 at the login page that parses to an XML error without entry. *)
Lemma fatal_fault_dumps_once_witness :
  let st := initial_state empty_cache in
  let data := "<html>login</html>" in
  exists msg st',
    check_bozo demo_task demo_cfg data login_page_feed st = (Raise (PluginError msg), st') /\
    received st' = (received st ++ [(received_name demo_task data, data)])%list /\
    simple_persistence st' = simple_persistence st /\
    entries st' = entries st.
Proof.
  intros st data.
  apply (fatal_fault_dumps_once demo_task demo_cfg data login_page_feed SAXParseException st);
    reflexivity.
Defined.

(** X10 at a feed with an XML error and one entry. *)
Lemma bozo_with_entries_never_dumps_witness :
  let rss := {| bozo := Some true; bozo_exception_of := Some SAXParseException;
                feed_entries := [plain_entry "A" "g" "http://x/1"] |} in
  let st := initial_state empty_cache in
  match check_bozo demo_task demo_cfg "<rss>" rss st with
  | (Next ignore, st') =>
      received st' = received st /\
      simple_persistence st' = simple_persistence st /\
      entries st' = entries st /\
      (forall ex, bozo_exception_of rss = Some ex ->
         is_transport ex = false /\
         (ex = NonXMLContentType \/ ex = CharacterEncodingOverride \/
          ex = UnicodeEncodeError \/ ex = SAXParseException -> ignore = true))
  | (Raise e, st') =>
      st' = st /\
      exists ex, bozo_exception_of rss = Some ex /\ is_transport ex = true /\ e = BozoRaised ex
  | (Return _, _) => False
  end.
Proof.
  intros rss st.
  apply (bozo_with_entries_never_dumps demo_task demo_cfg "<rss>" rss st).
  discriminate.
Defined.

(** X11 at the five entries, scanned against the fingerprint of the third. *)
Lemma rss_loop_keeps_entries_witness :
  let W := demo_world None None in
  let st := initial_state empty_cache in
  Forall2 same_entry_data five_entries
    (match (@rss_loop W demo_cfg (Some (VStr "e2g2")) five_entries st).1 with
     | Next es' => es'
     | _ => []
     end).
Proof.
  intros W st.
  apply (@rss_loop_keeps_entries W demo_cfg (Some (VStr "e2g2")) five_entries st _
           (@rss_loop W demo_cfg (Some (VStr "e2g2")) five_entries st).2).
  vm_compute. reflexivity.
Defined.

(** X12 at the five entries, on a first run. *)
Lemma scan_without_fingerprint_visits_all_witness :
  let W := demo_world None None in
  let st := initial_state empty_cache in
  Forall2 (scanned_entry demo_cfg) five_entries
    (match (@rss_loop W demo_cfg None five_entries st).1 with
     | Next es' => es'
     | _ => []
     end).
Proof.
  intros W st.
  apply (@scan_without_fingerprint_visits_all W demo_cfg None five_entries
           (or_introl eq_refl) st _
           (@rss_loop W demo_cfg None five_entries st).2).
  vm_compute. reflexivity.
Defined.


(** X15 at an item with two enclosures whose url was set. *)
Lemma group_links_covers_enclosures_witness :
  let e : Entry := <["url" := EVal (VStr "http://x/a")]> ∅ in
  let st := initial_state empty_cache in
  let e' : Entry := match (group_links linkless_entry e st).1 with
                    | Next e1 => e1
                    | _ => ∅
                    end in
  e' !! "url" = e !! "url" /\
  exists before more,
    before =
      (match e !! "urls", e !! "url" with
       | Some (EList l), _ => l
       | _, Some (EVal v) => [v]
       | _, _ => []
       end) /\
    entry_urls e' = (before ++ more)%list /\
    (forall v, v ∈ more -> v ∉ before) /\
    (forall enc, enc ∈ enclosures linkless_entry ->
       exists h, href enc = Some h /\ VStr h ∈ entry_urls e').
Proof.
  intros e st e'.
  apply (group_links_covers_enclosures linkless_entry e st e' st).
  vm_compute. reflexivity.
Defined.

(** X16 at a plain item with the title [A], on a first run. *)
Lemma clean_title_rescan_stops_witness :
  let W := demo_world None None in
  let e := plain_entry "A" "g" "http://x/1" in
  let e' := set_title_attr e (VStr "A") in
  (forall rest st1,
     exists st2,
       save_last_entry (e' :: rest) st1 = (Next tt, st2) /\
       cs_last_entry (simple_persistence st2) = Some (VStr ("A" ++ "g"))) /\
  (forall post st3,
     exists es' st4,
       @rss_loop W demo_cfg (Some (VStr ("A" ++ "g"))) (e :: post) st3 = (Next es', st4) /\
       entries st4 = entries st3 /\
       ignored st4 = ignored st3 /\
       no_entries_ok st4 = true).
Proof.
  intros W e e'.
  apply (@clean_title_rescan_stops W demo_cfg None e (initial_state empty_cache) e'
           (@loop_body W demo_cfg None e (initial_state empty_cache)).2 "A" "g");
    vm_compute; reflexivity.
Defined.

(** X17 at the info page of torrent 123. *)
Lemma nyaa_resolve_once_witness :
  let entry : Entry :=
    <["url" := EVal (VStr "http://www.nyaatorrents.org/?page=torrentinfo&tid=123")]> ∅ in
  exists entry' rest,
    ResolveNyaaTorrents.resolve entry = inr entry' /\
    entry' !! "url" =
      Some (EVal (VStr ("http://www.nyaatorrents.org/?page=download&tid=" ++ rest))) /\
    ResolveNyaaTorrents.resolvable entry' = inr false.
Proof.
  intros entry. apply (nyaa_resolve_once entry). reflexivity.
Defined.

(** X18 at the download address of torrent 7. *)
Lemma btchat_rewrite_once_witness :
  let entry : Entry :=
    <["url" := EVal (VStr "http://www.bt-chat.com/download.php?id=7")]> ∅ in
  exists entry' rest,
    UrlRewriteBtChat.url_rewrite entry = inr entry' /\
    entry' !! "url" =
      Some (EVal (VStr ("http://www.bt-chat.com/download1.php" ++ rest))) /\
    UrlRewriteBtChat.url_rewritable entry' = inr false.
Proof.
  intros entry. apply (btchat_rewrite_once entry). reflexivity.
Defined.

(** X19 at one directory with two names. *)
Lemma listdir_entries_witness :
  let expanduser := fun p : string => p in
  let os_listdir := fun p : string =>
    if String.eqb p "/m" then inr ["a.avi"; "b.srt"] else inl Listdir.OSError in
  let path_join := fun a b : string => a ++ "/" ++ b in
  let config := Listdir.OnePath "/m" in
  let out := match Listdir.on_task_input expanduser os_listdir path_join config with
             | inr o => o
             | inl _ => []
             end in
  Forall (fun e : Entry =>
            exists path name names,
              path ∈ (match config with Listdir.OnePath p => [p] | Listdir.Paths l => l end) /\
              os_listdir (expanduser path) = inr names /\ name ∈ names /\
              e !! "title" = Some (EVal (VStr name)) /\
              e !! "filename" = Some (EVal (VStr name)) /\
              e !! "location" = Some (EVal (VStr (path_join (expanduser path) name))) /\
              exists rest, e !! "url" = Some (EVal (VStr ("file:///" ++ rest)))) out /\
  Forall (fun path => exists names, os_listdir (expanduser path) = inr names)
    (match config with Listdir.OnePath p => [p] | Listdir.Paths l => l end).
Proof.
  intros expanduser os_listdir path_join config out.
  apply (listdir_entries expanduser os_listdir path_join config out).
  reflexivity.
Defined.

(** X20 at a run in the [all_entries] mode whose answer carries an etag. *)
Lemma all_entries_never_saves_validators_witness :
  let W := demo_world (Some login_page_response) (Some (clean_feed five_entries)) in
  let c := ConfigDict
    {| raw_url := demo_url; raw_username := None; raw_password := None;
       raw_title := None; raw_link := None; raw_other_fields := None;
       raw_silent := None; raw_ascii := None; raw_filename := None;
       raw_group_links := None; raw_all_entries := Some true |} in
  let st := initial_state empty_cache in
  same_validators st (@on_task_input W demo_task c st).2.
Proof.
  intros W c st.
  apply (@all_entries_never_saves_validators W demo_task c st
           (match (@build_config W c st).1 with Next cfg => cfg | _ => demo_cfg end));
    reflexivity.
Defined.

(** X21 at a 200 answer whose feed has no entry. *)
Lemma empty_feed_returns_empty_witness :
  let W := demo_world (Some (ok_response "<rss/>")) (Some (clean_feed [])) in
  let h := {| if_none_match := None; if_modified_since := None |} in
  let st1 := (log_ LDebug "Requesting task `%s` url `%s`" (initial_state empty_cache)).2 in
  let st2 := (conditional_headers false st1).2 in
  let st3 := (@get_content W demo_cfg h st2).2 in
  exists st,
    @run W demo_task (ConfigUrl demo_url) empty_cache = (Returned (Some []), st) /\
    simple_persistence st = simple_persistence st3 /\
    no_entries_ok st = no_entries_ok st3 /\
    received st = received st3 /\
    ignored st = 0%nat.
Proof.
  intros W h st1 st2 st3.
  apply (@empty_feed_returns_empty W demo_task (ConfigUrl demo_url) empty_cache
           demo_cfg h st2 st3 "<rss/>" (clean_feed []));
    reflexivity.
Defined.
